(** * Chat relay handler ([api/chat.js]): shallow embedding and verified properties

    The handler proxies a chat-completion request to the inference provider,
    either relays the provider's event stream or post-processes the complete
    answer: it extracts "reflection" sections with two regular expressions,
    stores each one in the key-value store and stores the conversation turn
    in the memory service.

    Layout: the embedding of the JavaScript values, of the regular-expression
    matcher, of the platform's UTF-8 codec and of the handler comes first;
    the properties follow. *)

From Stdlib Require Import Floats NArith ZArith List String Ascii Bool Arith Lia.
Import ListNotations.

Set Implicit Arguments.
Set Warnings "-register-all".

(* ================================================================== *)
(** * JavaScript values used by the handler *)
(* ================================================================== *)

Module JS.

(** A JavaScript string is a sequence of UTF-16 code units. *)
Definition code_unit := N.
Definition jsstring := list code_unit.

(** The ASCII literals of the source text. *)
Definition lit (s : string) : jsstring :=
  map N_of_ascii (list_ascii_of_string s).

(** A JavaScript number is an IEEE-754 binary64 value. *)
Definition number := float.

(** [ToBoolean]: [undefined] is [None]; [+0], [-0] and [NaN] are falsy
    numbers; the empty string is the falsy string; arrays are truthy. *)
Definition truthy_number (x : number) : bool :=
  negb (PrimFloat.is_zero x || PrimFloat.is_nan x).

Definition truthy_string (s : jsstring) : bool :=
  match s with [] => false | _ :: _ => true end.

Definition truthy_bool (b : bool) : bool := b.

Definition truthy_opt {A} (truthy : A -> bool) (x : option A) : bool :=
  match x with Some v => truthy v | None => false end.

(** [x || d] where [x] may be [undefined]. *)
Definition or_default {A} (truthy : A -> bool) (x : option A) (d : A) : A :=
  match x with
  | Some v => if truthy v then v else d
  | None => d
  end.

(** White space and line terminators: the characters of [\s] and the ones
    [String.prototype.trim] strips. *)
Definition is_white_space (c : code_unit) : bool :=
  ((0x09 <=? c) && (c <=? 0x0D) || (c =? 0x20) || (c =? 0xA0) || (c =? 0x1680)
   || (0x2000 <=? c) && (c <=? 0x200A)
   || (c =? 0x2028) || (c =? 0x2029) || (c =? 0x202F) || (c =? 0x205F)
   || (c =? 0x3000) || (c =? 0xFEFF))%N.

(** The characters of [\d]. *)
Definition is_digit (c : code_unit) : bool := ((0x30 <=? c) && (c <=? 0x39))%N.

Fixpoint drop_while {A} (p : A -> bool) (l : list A) : list A :=
  match l with
  | [] => []
  | a :: l' => if p a then drop_while p l' else l
  end.

Fixpoint take_while {A} (p : A -> bool) (l : list A) : list A :=
  match l with
  | [] => []
  | a :: l' => if p a then a :: take_while p l' else []
  end.

(** [s.trim()] *)
Definition trim (s : jsstring) : jsstring :=
  rev (drop_while is_white_space (rev (drop_while is_white_space s))).

(** [s.split(sep)[0]] for a one-character separator: the text before the
    first occurrence of [sep], the whole string when there is none. *)
Definition split_first (sep : code_unit) (s : jsstring) : jsstring :=
  take_while (fun c => negb (c =? sep)%N) s.

(** [s.substr(start, len)] for non-negative arguments. *)
Definition substr (start len : nat) (s : jsstring) : jsstring :=
  firstn len (skipn start s).

(** Error objects: only [message] is read. *)
Record error := Error { message : jsstring }.

(** Result of running a piece of code: a value, a thrown exception, or the
    exhaustion of the fuel that bounds the model's loops. *)
Inductive outcome (A : Type) : Type :=
| Ok (a : A)
| Throw (e : error)
| OutOfFuel.
Arguments Ok {A} a.
Arguments Throw {A} e.
Arguments OutOfFuel {A}.

(** The [TypeError] of reading a property of [undefined]. *)
Definition type_error_undefined (prop : string) : error :=
  Error (lit "Cannot read properties of undefined (reading '" ++ lit prop ++ lit "')").

End JS.
Import JS.

(* ================================================================== *)
(** * Regular expressions: a backtracking matcher *)
(* ================================================================== *)

Module Regex.

(** The fragment of the pattern language the two expressions of the handler
    use. The matcher follows the continuation-passing semantics of the
    language definition. *)
Inductive regex : Type :=
| Empty
| Char (c : code_unit)
| Class (p : code_unit -> bool)
| Seq (r1 r2 : regex)
| Alt (r1 r2 : regex)
| Star (greedy : bool) (r : regex)
| Group (r : regex)
| Lookahead (r : regex)
| EndOfInput.

(** [r+] *)
Definition Plus (r : regex) : regex := Seq r (Star true r).

(** A literal string of the pattern. *)
Definition Str (s : string) : regex :=
  fold_right (fun c r => Seq (Char c) r) Empty (lit s).

(** Matcher state: the input from the current end index on, and the text of
    capture group 1 ([None] while it is [undefined]). *)
Record mstate := MState { rest : jsstring; cap1 : option jsstring }.

Definition continuation := mstate -> option mstate.

(** [Canonicalize] under the [i] flag (without [u]): a code unit is mapped
    to its upper case. Only ASCII letters are mapped here: the patterns of
    the handler hold ASCII characters only, and the language definition
    never canonicalizes a code unit of 128 or more to one below 128, so a
    comparison with a pattern character comes out the same. *)
Definition canonicalize (ignoreCase : bool) (c : code_unit) : code_unit :=
  if ignoreCase && (0x61 <=? c)%N && (c <=? 0x7A)%N then (c - 0x20)%N else c.

Section Matcher.

Variable ignoreCase : bool.

(** Repetition of matcher [m] (zero or more times). An iteration that
    consumes nothing is rejected, as the language definition does; every
    accepted iteration shortens [rest], which [fuel] bounds. *)
Fixpoint repeat_matcher (fuel : nat) (greedy : bool)
    (m : continuation -> mstate -> option mstate)
    (k : continuation) (x : mstate) : option mstate :=
  match fuel with
  | O => None
  | S fuel' =>
      let again :=
        m (fun y =>
             if (List.length (rest y) <? List.length (rest x))%nat
             then repeat_matcher fuel' greedy m k y
             else None) x in
      if greedy then
        match again with Some z => Some z | None => k x end
      else
        match k x with Some z => Some z | None => again end
  end.

(** The character classes of the handler's patterns ([\s], [\d], [[\s\S]])
    are closed under [canonicalize], so membership is tested directly. *)
Fixpoint matcher (r : regex) (k : continuation) (x : mstate) {struct r}
  : option mstate :=
  match r with
  | Empty => k x
  | Char c =>
      match rest x with
      | ch :: t =>
          if (canonicalize ignoreCase ch =? canonicalize ignoreCase c)%N
          then k (MState t (cap1 x)) else None
      | [] => None
      end
  | Class p =>
      match rest x with
      | ch :: t => if p ch then k (MState t (cap1 x)) else None
      | [] => None
      end
  | Seq r1 r2 => matcher r1 (matcher r2 k) x
  | Alt r1 r2 =>
      match matcher r1 k x with
      | Some z => Some z
      | None => matcher r2 k x
      end
  | Star greedy r1 =>
      repeat_matcher (S (List.length (rest x))) greedy (matcher r1) k x
  | Group r1 =>
      matcher r1
        (fun y =>
           k (MState (rest y)
                (Some (firstn (List.length (rest x) - List.length (rest y))
                         (rest x)))))
        x
  | Lookahead r1 =>
      match matcher r1 Some x with
      | Some y => k (MState (rest x) (cap1 y))
      | None => None
      end
  | EndOfInput =>
      match rest x with [] => k x | _ :: _ => None end
  end.

(** The match array of [exec]: [index], [match[0]] and [match[1]]. *)
Record match_array := MatchArray {
  index : nat;
  m0 : jsstring;
  m1 : option jsstring
}.

(** Search for the first start position at or after the current one where
    the pattern matches; [i] is the index of [s] in the whole input. *)
Fixpoint search (r : regex) (i : nat) (s : jsstring) : option match_array :=
  match matcher r Some (MState s None) with
  | Some y =>
      Some (MatchArray i (firstn (List.length s - List.length (rest y)) s) (cap1 y))
  | None =>
      match s with
      | [] => None
      | _ :: s' => search r (S i) s'
      end
  end.

(** [regex.exec(input)] of a pattern with the [g] flag whose [lastIndex] is
    [lastIndex]: the match array (or [null]) and the new [lastIndex]. *)
Definition exec (r : regex) (input : jsstring) (lastIndex : nat)
  : option match_array * nat :=
  if (List.length input <? lastIndex)%nat then (None, O)
  else
    match search r lastIndex (skipn lastIndex input) with
    | Some a => (Some a, (index a + List.length (m0 a))%nat)
    | None => (None, O)
    end.

End Matcher.

End Regex.

(* ================================================================== *)
(** * The reflection extractor ([parseReflectionsFromAIOutput]) *)
(* ================================================================== *)

Module Extractor.
Import Regex.

(** An extracted reflection: [{ type, content }]. *)
Record reflection := Reflection { type : jsstring; content : jsstring }.

Definition ws : regex := Class is_white_space.
Definition digit : regex := Class is_digit.
(** [[\s\S]] *)
Definition any : regex :=
  Class (fun c => is_white_space c || negb (is_white_space c)).

(** [DETAILED REFLECTION\s*\d+\s*:] *)
Definition label : regex :=
  Seq (Str "DETAILED REFLECTION")
    (Seq (Star true ws) (Seq (Plus digit) (Seq (Star true ws) (Char 0x3A%N)))).

(** [/DETAILED REFLECTION\s*\d+\s*:([\s\S]*?)(?=DETAILED REFLECTION\s*\d+\s*:|Reflection:|####|$)/gi] *)
Definition detailedReflectionRegex : regex :=
  Seq label
    (Seq (Group (Star false any))
       (Lookahead
          (Alt label (Alt (Str "Reflection:") (Alt (Str "####") EndOfInput))))).

(** [/Reflection:([\s\S]*?)(?=####|$)/gi] *)
Definition briefReflectionRegex : regex :=
  Seq (Str "Reflection:")
    (Seq (Group (Star false any))
       (Lookahead (Alt (Str "####") EndOfInput))).

(** Both expressions carry the flags [gi]. *)
Definition ignoreCase : bool := true.

(** [match[1].trim()]: a [TypeError] when the group is [undefined]. *)
Definition trim_group (g : option jsstring) : outcome jsstring :=
  match g with
  | Some s => Ok (trim s)
  | None => Throw (type_error_undefined "trim")
  end.

(** The [while ((match = detailedReflectionRegex.exec(aiOutput)) !== null)]
    loop; [lastIndex] is the expression's [lastIndex] property. *)
Fixpoint detailed_loop (fuel : nat) (aiOutput : jsstring) (lastIndex : nat)
    (reflections : list reflection) : outcome (list reflection) :=
  match fuel with
  | O => OutOfFuel
  | S fuel' =>
      match exec ignoreCase detailedReflectionRegex aiOutput lastIndex with
      | (Some match_, lastIndex') =>
          match trim_group (m1 match_) with
          | Ok c =>
              detailed_loop fuel' aiOutput lastIndex'
                (reflections ++
                   [Reflection (trim (split_first 0x3A%N (m0 match_))) c])
          | Throw e => Throw e
          | OutOfFuel => OutOfFuel
          end
      | (None, _) => Ok reflections
      end
  end.

Definition parseReflectionsFromAIOutput (aiOutput : jsstring)
  : outcome (list reflection) :=
  match detailed_loop (S (List.length aiOutput)) aiOutput 0 [] with
  | Ok reflections =>
      match fst (exec ignoreCase briefReflectionRegex aiOutput 0) with
      | Some match_ =>
          match trim_group (m1 match_) with
          | Ok c => Ok (reflections ++ [Reflection (lit "BRIEF REFLECTION") c])
          | Throw e => Throw e
          | OutOfFuel => OutOfFuel
          end
      | None => Ok reflections
      end
  | Throw e => Throw e
  | OutOfFuel => OutOfFuel
  end.

End Extractor.

(* ================================================================== *)
(** * The platform's UTF-8 codec ([TextDecoder] and [res.write]) *)
(* ================================================================== *)

Module Utf8.

Local Open Scope N_scope.

Definition byte := N.
Definition bytes := list byte.

(** State of the UTF-8 decoder of the Encoding standard. *)
Record decoder := Decoder {
  code_point : N;
  bytes_seen : N;
  bytes_needed : N;
  lower_boundary : N;
  upper_boundary : N
}.

Definition initial : decoder := Decoder 0 0 0 0x80 0xBF.

(** U+FFFD, emitted for every decoding error (the decoder is not fatal). *)
Definition replacement : N := 0xFFFD.

(** The decoder's handler on a byte when no bytes are needed: the next
    state and the code points emitted. *)
Definition lead (b : byte) : decoder * list N :=
  if b <=? 0x7F then (initial, [b])
  else if (0xC2 <=? b) && (b <=? 0xDF) then
    (Decoder (N.land b 0x1F) 0 1 0x80 0xBF, [])
  else if (0xE0 <=? b) && (b <=? 0xEF) then
    (Decoder (N.land b 0xF) 0 2
       (if b =? 0xE0 then 0xA0 else 0x80)
       (if b =? 0xED then 0x9F else 0xBF), [])
  else if (0xF0 <=? b) && (b <=? 0xF4) then
    (Decoder (N.land b 0x7) 0 3
       (if b =? 0xF0 then 0x90 else 0x80)
       (if b =? 0xF4 then 0x8F else 0xBF), [])
  else (initial, [replacement]).

(** The decoder's handler on one byte. A byte outside the boundaries is an
    error: the state is reset, U+FFFD is emitted and the byte is read
    again. *)
Definition step (d : decoder) (b : byte) : decoder * list N :=
  if bytes_needed d =? 0 then lead b
  else if negb ((lower_boundary d <=? b) && (b <=? upper_boundary d)) then
    let (d', out) := lead b in (d', replacement :: out)
  else
    let cp := N.lor (N.shiftl (code_point d) 6) (N.land b 0x3F) in
    let seen := bytes_seen d + 1 in
    if seen =? bytes_needed d then (initial, [cp])
    else (Decoder cp seen (bytes_needed d) 0x80 0xBF, []).

(** The bytes of one chunk run through the decoder; an incomplete sequence
    at the end stays in the state (the [stream] option). *)
Fixpoint run (d : decoder) (bs : bytes) : decoder * list N :=
  match bs with
  | [] => (d, [])
  | b :: bs' =>
      let (d1, out1) := step d b in
      let (d2, out2) := run d1 bs' in
      (d2, out1 ++ out2)
  end.

(** A code point as UTF-16 code units. *)
Definition utf16 (c : N) : jsstring :=
  if c <? 0x10000 then [c]
  else [0xD800 + N.shiftr (c - 0x10000) 10; 0xDC00 + N.land (c - 0x10000) 0x3FF].

(** A [TextDecoder] of the default encoding, not fatal, [ignoreBOM] false. *)
Record text_decoder := TextDecoder { utf8 : decoder; bom_seen : bool }.

Definition new_TextDecoder : text_decoder := TextDecoder initial false.

(** [decoder.decode(value, { stream: true })]: the first code point of the
    stream is dropped when it is the byte order mark. *)
Definition decode (td : text_decoder) (value : bytes) : jsstring * text_decoder :=
  let (d, out) := run (utf8 td) value in
  if bom_seen td then (flat_map utf16 out, TextDecoder d true)
  else
    match out with
    | [] => ([], TextDecoder d false)
    | c :: out' =>
        (flat_map utf16 (if c =? 0xFEFF then out' else out), TextDecoder d true)
    end.








End Utf8.

(* ================================================================== *)
(** * The request handler ([module.exports]) *)
(* ================================================================== *)

Module Handler.
Import Extractor.

(** ** Data *)

(** JSON documents the handler passes along without looking inside. *)
Inductive json : Type :=
| JNull
| JBool (b : bool)
| JNumber (n : number)
| JString (s : jsstring)
| JArray (items : list json)
| JObject (fields : list (jsstring * json)).

Definition truthy_json (j : json) : bool :=
  match j with
  | JNull => false
  | JBool b => b
  | JNumber n => truthy_number n
  | JString s => truthy_string s
  | JArray _ | JObject _ => true
  end.

(** Arrays are truthy, the empty one included. *)
Definition truthy_array {A} (l : list A) : bool := true.

(** One entry of [messages]: [{ role, content }]. *)
Record message := Message { role : jsstring; msg_content : option jsstring }.

(** The parsed request body, a JSON object whose recognised fields have the
    types of the data model; an absent field is [undefined]. *)
Record body := Body {
  model : option jsstring;
  messages : option (list message);
  temperature : option number;
  top_p : option number;
  top_k : option number;
  max_tokens : option number;
  presence_penalty : option number;
  frequency_penalty : option number;
  stream : option bool;
  tools : option (list json);
  tool_choice : option json;
  currentThreadId : option jsstring
}.

Record request := Request { method : string; req_body : body }.

(** [fireworksPayload]; [tools] and [tool_choice] are present only once they
    were assigned. *)
Record payload := Payload {
  p_model : jsstring;
  p_messages : list message;
  p_temperature : number;
  p_top_p : number;
  p_top_k : number;
  p_max_tokens : number;
  p_presence_penalty : number;
  p_frequency_penalty : number;
  p_stream : bool;
  p_tools : option (list json);
  p_tool_choice : option json
}.

(** The provider's answer to a non-streaming request, at the shape the
    handler reads: [data.choices[0].message.content]; [other] stands for
    the document's remaining members. *)
Record choice_message := ChoiceMessage { cm_content : option jsstring }.
Record choice := Choice { ch_message : option choice_message }.
Record completion := Completion {
  choices : option (list (option choice));
  other : list (jsstring * json)
}.

(** How a promise of the outside world settles. *)
Inductive promise (A : Type) : Type :=
| Fulfilled (a : A)
| Rejected (e : error).
Arguments Fulfilled {A} a.
Arguments Rejected {A} e.

(** [response.body]: the chunks its reader yields, then [done] ([None]) or
    a rejected read. *)
Record body_stream := BodyStream {
  chunks : list Utf8.bytes;
  ending : option error
}.

(** The [Response] of [fetch]. *)
Record http_response := Response {
  status : Z;
  text : promise jsstring;
  json_ : promise completion;
  resp_body : option body_stream
}.

(** [response.ok] *)
Definition ok (r : http_response) : bool :=
  ((200 <=? status r) && (status r <=? 299))%Z.

(** The record written to the key-value store. *)
Record reflection_record := ReflectionRecord {
  rr_threadId : jsstring;
  rr_timestamp : jsstring;
  rr_type : jsstring;
  rr_content : jsstring
}.

(** One entry of the turn given to the memory service. *)
Record turn := Turn { t_role : jsstring; t_content : jsstring }.

(** The memory-service client: [new Mem0({ apiKey })]. *)
Record mem0_client := Mem0 { m_apiKey : jsstring }.

(** Calls to the three external services, in the order they are made. *)
Inductive event : Type :=
| Fetch (url : string) (headers : list (string * jsstring)) (body : payload)
| KvSet (key : jsstring) (value : reflection_record)
| Mem0Add (client : mem0_client) (turns : list turn) (userId : jsstring).

(** Everything outside the handler: the environment variables, how the
    provider answers, which writes fail, the clock and the random source. *)
Record world := World {
  FIREWORKS_API_KEY : option jsstring;
  MEM_API_KEY : option jsstring;
  upstream : promise http_response;
  kv_set_result : nat -> option error;
  mem0_add_result : option error;
  now_iso : nat -> jsstring;
  random36 : nat -> jsstring
}.

(** The body [res.json] sends. *)
Inductive json_body : Type :=
| ErrorBody (error : string) (message : option jsstring)
| DataBody (data : completion).

Inductive body_part : Type :=
| JsonPart (j : json_body)
| TextPart (s : jsstring).

(** The response object [res]. *)
Record res_state := Res {
  headers : list (string * string);
  statusCode : Z;
  sent : list body_part;
  ended : bool
}.

(** A line of [console.log] ([level] "log") or [console.error] ("error"). *)
Record console_line := ConsoleLine { level : string; line : string }.

Record state := State {
  res : res_state;
  trace : list event;
  console : list console_line;
  dates : nat;
  randoms : nat;
  kv_calls : nat
}.

Definition initial_state : state :=
  State (Res [] 200 [] false) [] [] 0 0 0.

(** ** A state and exception monad for the handler's code *)

Definition M (A : Type) : Type := state -> outcome A * state.

Definition ret {A} (a : A) : M A := fun s => (Ok a, s).

Definition bind {A B} (m : M A) (f : A -> M B) : M B :=
  fun s =>
    match m s with
    | (Ok a, s') => f a s'
    | (Throw e, s') => (Throw e, s')
    | (OutOfFuel, s') => (OutOfFuel, s')
    end.

Definition throw {A} (e : error) : M A := fun s => (Throw e, s).

(** [try { body } catch (error) { handler }] *)
Definition try_catch {A} (body : M A) (handler : error -> M A) : M A :=
  fun s =>
    match body s with
    | (Throw e, s') => handler e s'
    | r => r
    end.

(** A pure computation that may throw. *)
Definition lift {A} (o : outcome A) : M A := fun s => (o, s).

(** [await p] *)
Definition await {A} (p : promise A) : M A :=
  match p with
  | Fulfilled a => ret a
  | Rejected e => throw e
  end.

Declare Scope handler_scope.
Delimit Scope handler_scope with handler.
Notation "x <- m ;; k" := (bind m (fun x => k))
  (at level 61, m at next level, right associativity) : handler_scope.
Notation "m ;; k" := (bind m (fun _ => k))
  (at level 61, right associativity) : handler_scope.
Local Open Scope handler_scope.

Definition modify (f : state -> state) : M unit := fun s => (Ok tt, f s).

(** ** The operations of the platform *)

Definition update_res (f : res_state -> res_state) : M unit :=
  modify (fun s =>
    State (f (res s)) (trace s) (console s) (dates s) (randoms s) (kv_calls s)).

Definition res_setHeader (name value : string) : M unit :=
  update_res (fun r =>
    Res (headers r ++ [(name, value)]) (statusCode r) (sent r) (ended r)).

Definition res_status (code : Z) : M unit :=
  update_res (fun r => Res (headers r) code (sent r) (ended r)).

Definition res_json (j : json_body) : M unit :=
  update_res (fun r => Res (headers r) (statusCode r) (sent r ++ [JsonPart j]) true).

Definition res_write (chunk : jsstring) : M unit :=
  update_res (fun r =>
    Res (headers r) (statusCode r) (sent r ++ [TextPart chunk]) (ended r)).

Definition res_end : M unit :=
  update_res (fun r => Res (headers r) (statusCode r) (sent r) true).

Definition console_log (text : string) : M unit :=
  modify (fun s =>
    State (res s) (trace s) (console s ++ [ConsoleLine "log" text]) (dates s) (randoms s)
      (kv_calls s)).

Definition console_error (text : string) : M unit :=
  modify (fun s =>
    State (res s) (trace s) (console s ++ [ConsoleLine "error" text]) (dates s) (randoms s)
      (kv_calls s)).

Definition record (e : event) : M unit :=
  modify (fun s =>
    State (res s) (trace s ++ [e]) (console s) (dates s) (randoms s) (kv_calls s)).

(** [new Date().toISOString()] *)
Definition new_Date_toISOString (w : world) : M jsstring :=
  fun s =>
    (Ok (now_iso w (dates s)),
     State (res s) (trace s) (console s) (S (dates s)) (randoms s) (kv_calls s)).

(** [Math.random().toString(36)] *)
Definition Math_random_toString36 (w : world) : M jsstring :=
  fun s =>
    (Ok (random36 w (randoms s)),
     State (res s) (trace s) (console s) (dates s) (S (randoms s)) (kv_calls s)).

(** [await fetch(url, { method: 'POST', headers, body: JSON.stringify(payload) })] *)
Definition fetch (w : world) (url : string) (hs : list (string * jsstring))
    (p : payload) : M http_response :=
  record (Fetch url hs p) ;; await (upstream w).

(** [await kv.set(key, value)] *)
Definition kv_set (w : world) (key : jsstring) (value : reflection_record) : M unit :=
  fun s =>
    let s' :=
      State (res s) (trace s ++ [KvSet key value]) (console s) (dates s)
        (randoms s) (S (kv_calls s)) in
    match kv_set_result w (kv_calls s) with
    | Some e => (Throw e, s')
    | None => (Ok tt, s')
    end.

(** [await mem0.add(turns, { userId })] *)
Definition mem0_add (w : world) (client : mem0_client) (turns : list turn)
    (userId : jsstring) : M unit :=
  record (Mem0Add client turns userId) ;;
  match mem0_add_result w with
  | Some e => throw e
  | None => ret tt
  end.

(** ** The handler *)

(** The value of [x] when [x] is truthy: what the code goes on with after
    the guard [if (!x) return ...]. *)
Definition truthy_value {A} (truthy : A -> bool) (x : option A) : option A :=
  match x with
  | Some v => if truthy v then Some v else None
  | None => None
  end.

Definition url : string := "https://api.fireworks.ai/inference/v1/chat/completions".

(** The binary64 value that the literal [0.6] denotes. *)
Definition zero_point_six : number := 0x1.3333333333333p-1%float.

(** [fireworksPayload], with [tools] and [tool_choice] added when
    [tools && tools.length > 0]. *)
Definition fireworksPayload (model : jsstring) (messages : list message)
    (b : body) : payload :=
  let with_tools (ts : option (list json)) (tc : option json) :=
    Payload model messages
      (or_default truthy_number (temperature b) zero_point_six)
      (or_default truthy_number (top_p b) 1%float)
      (or_default truthy_number (top_k b) 40%float)
      (or_default truthy_number (max_tokens b) 4096%float)
      (or_default truthy_number (presence_penalty b) 0%float)
      (or_default truthy_number (frequency_penalty b) 0%float)
      (or_default truthy_bool (stream b) false)
      ts tc in
  match tools b with
  | Some ts =>
      if (0 <? List.length ts)%nat
      then with_tools (Some ts) (truthy_value truthy_json (tool_choice b))
      else with_tools None None
  | None => with_tools None None
  end.

(** [data.choices && data.choices[0] && data.choices[0].message &&
    data.choices[0].message.content ? data.choices[0].message.content : ''] *)
Definition aiResponseContent (data : completion) : jsstring :=
  match choices data with
  | Some (Some c :: _) =>
      match ch_message c with
      | Some m => or_default truthy_string (cm_content m) []
      | None => []
      end
  | _ => []
  end.

(** [messages[messages.length - 1]]: [undefined] on the empty array. *)
Definition last_message (messages : list message) : option message :=
  nth_error messages (List.length messages - 1).

Definition double_quote : jsstring := [0x22%N].
Definition line_feed : jsstring := [0x0A%N].

(** [`data: {"error": "Streaming interrupted"}\n\n`] *)
Definition streaming_interrupted : jsstring :=
  lit "data: {" ++ double_quote ++ lit "error" ++ double_quote ++ lit ": "
    ++ double_quote ++ lit "Streaming interrupted" ++ double_quote ++ lit "}"
    ++ line_feed ++ line_feed.

(** The [while (true)] loop over [reader.read()]. *)
Fixpoint relay (decoder : Utf8.text_decoder) (chunks : list Utf8.bytes)
    (ending : option error) : M unit :=
  match chunks with
  | value :: chunks' =>
      let (chunk, decoder') := Utf8.decode decoder value in
      res_write chunk ;;
      relay decoder' chunks' ending
  | [] =>
      match ending with
      | None => ret tt
      | Some e => throw e
      end
  end.

(** The failed upstream call, in both branches. *)
Definition api_request_failed (response : http_response) : M unit :=
  errorText <- await (text response) ;;
  console_error "Fireworks API Error:" ;;
  res_status (status response) ;;
  res_json (ErrorBody "API request failed" (Some errorText)).

Definition streaming (w : world) (fireworksHeaders : list (string * jsstring))
    (p : payload) : M unit :=
  let fireworksHeaders := fireworksHeaders ++ [("Accept"%string, lit "text/event-stream")] in
  response <- fetch w url fireworksHeaders p ;;
  if negb (ok response) then api_request_failed response
  else
    res_setHeader "Content-Type" "text/event-stream" ;;
    res_setHeader "Cache-Control" "no-cache" ;;
    res_setHeader "Connection" "keep-alive" ;;
    res_setHeader "Access-Control-Allow-Origin" "*" ;;
    res_setHeader "Access-Control-Allow-Methods" "GET, POST, OPTIONS" ;;
    res_setHeader "Access-Control-Allow-Headers" "Content-Type" ;;
    match resp_body response with
    | None => res_status 500 ;; res_json (ErrorBody "No response body from API" None)
    | Some reader =>
        let decoder := Utf8.new_TextDecoder in
        try_catch
          (relay decoder (chunks reader) (ending reader) ;;
           res_end)
          (fun error =>
             console_error "Streaming error:" ;;
             res_write streaming_interrupted ;;
             res_end)
    end.

(** The [for (const reflection of reflections)] loop. *)
Fixpoint store_reflections (w : world) (threadId : jsstring)
    (reflections : list reflection) : M unit :=
  match reflections with
  | [] => ret tt
  | reflection :: reflections' =>
      date <- new_Date_toISOString w ;;
      random <- Math_random_toString36 w ;;
      let reflectionId :=
        lit "reflection:" ++ threadId ++ lit ":" ++ date ++ lit ":"
          ++ substr 2 9 random in
      try_catch
        (timestamp <- new_Date_toISOString w ;;
         kv_set w reflectionId
           (ReflectionRecord threadId timestamp (type reflection) (content reflection)) ;;
         console_log "Reflection stored in KV:")
        (fun error => console_error "Error storing reflection in KV:") ;;
      store_reflections w threadId reflections'
  end.

Definition buffering (w : world) (mem0 : mem0_client)
    (fireworksHeaders : list (string * jsstring)) (p : payload)
    (messages : list message) (currentThreadId : option jsstring) : M unit :=
  response <- fetch w url fireworksHeaders p ;;
  if negb (ok response) then api_request_failed response
  else
    data <- await (json_ response) ;;
    let aiResponseContent := aiResponseContent data in
    let threadId := or_default truthy_string currentThreadId (lit "unknown-thread") in
    reflections <- lift (parseReflectionsFromAIOutput aiResponseContent) ;;
    store_reflections w threadId reflections ;;
    last <- match last_message messages with
            | Some m => ret m
            | None => throw (type_error_undefined "content")
            end ;;
    let userMessageForMem0 := msg_content last in
    let agentResponseForMem0 := aiResponseContent in
    match truthy_value truthy_string userMessageForMem0 with
    | Some user =>
        if truthy_string agentResponseForMem0 then
          try_catch
            (mem0_add w mem0
               [Turn (lit "user") user; Turn (lit "agent") agentResponseForMem0]
               (or_default truthy_string currentThreadId (lit "default-user")) ;;
             console_log "Conversation turn stored in Mem0 for userId:")
            (fun mem0Error => console_error "Error storing conversation in Mem0:")
        else ret tt
    | None => ret tt
    end ;;
    res_status 200 ;;
    res_json (DataBody data).

(** The body of the outer [try]. *)
Definition try_block (w : world) (req : request) : M unit :=
  match truthy_value truthy_string (FIREWORKS_API_KEY w) with
  | None =>
      console_error "FIREWORKS_API_KEY environment variable not set" ;;
      res_status 500 ;;
      res_json (ErrorBody "Server configuration error"
                  (Some (lit "API key not configured. Please check server environment variables.")))
  | Some apiKey =>
      match truthy_value truthy_string (MEM_API_KEY w) with
      | None =>
          console_error "MEM_API_KEY environment variable not set" ;;
          res_status 500 ;;
          res_json (ErrorBody "Server configuration error"
                      (Some (lit "Mem0 API key not configured.")))
      | Some mem0ApiKey =>
          let mem0 := Mem0 mem0ApiKey in
          let b := req_body req in
          match truthy_value truthy_string (model b),
                truthy_value truthy_array (messages b) with
          | Some model, Some messages =>
              console_log "Processing request:" ;;
              let fireworksPayload := fireworksPayload model messages b in
              let fireworksHeaders :=
                [("Authorization"%string, lit "Bearer " ++ apiKey);
                 ("Content-Type"%string, lit "application/json")] in
              if truthy_opt truthy_bool (stream b)
              then streaming w fireworksHeaders fireworksPayload
              else buffering w mem0 fireworksHeaders fireworksPayload messages
                     (currentThreadId b)
          | _, _ =>
              console_error "Missing required fields in request:" ;;
              res_status 400 ;;
              res_json (ErrorBody "Bad request"
                          (Some (lit "Missing required fields: model and messages")))
          end
      end
  end.

(** [module.exports = async (req, res) => ...] *)
Definition handler (w : world) (req : request) : M unit :=
  res_setHeader "Access-Control-Allow-Origin" "*" ;;
  res_setHeader "Access-Control-Allow-Methods" "GET, POST, OPTIONS" ;;
  res_setHeader "Access-Control-Allow-Headers" "Content-Type, Authorization" ;;
  if (method req =? "OPTIONS")%string then
    res_status 200 ;; res_end
  else if negb (method req =? "POST")%string then
    res_status 405 ;; res_json (ErrorBody "Method not allowed" None)
  else
    try_catch (try_block w req)
      (fun error =>
         console_error "Server error:" ;;
         res_status 500 ;;
         res_json (ErrorBody "Internal server error" (Some (JS.message error)))).

(** One invocation: the final state of the response, the calls made to the
    external services and how the handler's promise settles. *)
Definition run (w : world) (req : request) : outcome unit * state :=
  handler w req initial_state.

Definition response (w : world) (req : request) : res_state := res (snd (run w req)).
Definition calls (w : world) (req : request) : list event := trace (snd (run w req)).


(** ** What is seen of one invocation *)

(** The headers set on every response. *)
Definition cors_headers : list (string * string) :=
  [("Access-Control-Allow-Origin", "*");
   ("Access-Control-Allow-Methods", "GET, POST, OPTIONS");
   ("Access-Control-Allow-Headers", "Content-Type, Authorization")]%string.


(** [res.getHeader(name)]: the value of the last [setHeader] of that name. *)
Definition getHeader (name : string) (r : res_state) : option string :=
  match find (fun h => (fst h =? name)%string) (rev (headers r)) with
  | Some h => Some (snd h)
  | None => None
  end.

Definition is_fetch (e : event) : bool :=
  match e with Fetch _ _ _ => true | _ => false end.

Definition is_kv_write (e : event) : bool :=
  match e with KvSet _ _ => true | _ => false end.

Definition is_mem0_write (e : event) : bool :=
  match e with Mem0Add _ _ _ => true | _ => false end.

(** The write of one reflection, as the key-value store sees it. *)
Definition stores (threadId : jsstring) (e : event) (r : reflection) : Prop :=
  exists key timestamp,
    e = KvSet key (ReflectionRecord threadId timestamp (type r) (content r)).

(** The environment holds both credentials. *)
Definition configured (w : world) (apiKey mem0ApiKey : jsstring) : Prop :=
  FIREWORKS_API_KEY w = Some apiKey /\ apiKey <> [] /\
  MEM_API_KEY w = Some mem0ApiKey /\ mem0ApiKey <> [].

(** A POST request whose body holds the two required fields. *)
Definition well_formed (req : request) (model : jsstring) (messages : list message)
  : Prop :=
  method req = "POST"%string /\
  Handler.model (req_body req) = Some model /\ model <> [] /\
  Handler.messages (req_body req) = Some messages.

(** The headers of the upstream request. *)
Definition fireworksHeaders (apiKey : jsstring) : list (string * jsstring) :=
  [("Authorization"%string, lit "Bearer " ++ apiKey);
   ("Content-Type"%string, lit "application/json")].


(** The write to the memory service after a complete answer [data], [last]
    being the last entry of [messages]. *)
Definition memory_write (mem0 : mem0_client) (last : message) (data : completion)
    (currentThreadId : option jsstring) : list event :=
  match truthy_value truthy_string (msg_content last) with
  | Some user =>
      if truthy_string (aiResponseContent data)
      then [Mem0Add mem0
              [Turn (lit "user") user; Turn (lit "agent") (aiResponseContent data)]
              (or_default truthy_string currentThreadId (lit "default-user"))]
      else []
  | None => []
  end.

End Handler.

(* ================================================================== *)
(** * Sample requests and worlds *)
(* ================================================================== *)

(** Concrete inputs, used where a property is shown on an example. *)
Module Sample.
Import Handler.

Definition key : jsstring := lit "k".

Definition user_message : message := Message (lit "user") (Some (lit "hi")).

Definition assistant_message : message :=
  Message (lit "assistant") (Some (lit "hello")).

Definition empty_body : body :=
  Body None None None None None None None None None None None None.

(** [{ model: "m", messages, stream }] *)
Definition chat (messages : list message) (stream : option bool) : body :=
  Body (Some (lit "m")) (Some messages) None None None None None None stream
    None None None.

Definition post (b : body) : request := Request "POST" b.

(** [{ choices: [{ message: { content } }] }] *)
Definition answer (content : jsstring) : completion :=
  Completion (Some [Some (Choice (Some (ChoiceMessage (Some content))))]) [].

Definition body_used : error := Error (lit "Body is unusable").

(** A complete answer of the provider. *)
Definition success (data : completion) : http_response :=
  Response 200 (Rejected body_used) (Fulfilled data) None.



Definition world (apiKey mem0ApiKey : option jsstring)
    (upstream : promise http_response) (kv : nat -> option error)
    (mem0 : option error) : Handler.world :=
  World apiKey mem0ApiKey upstream kv mem0
    (fun _ => lit "2026-01-01T00:00:00.000Z") (fun _ => lit "0.4fzyo82mvyr").

(** A key-value store that refuses every write. *)
Definition kv_down : nat -> option error :=
  fun _ => Some (Error (lit "ECONNREFUSED")).

(** Both credentials set and both stores working. *)
Definition plain (upstream : promise http_response) : Handler.world :=
  world (Some key) (Some key) upstream (fun _ => None) None.

End Sample.

(* ================================================================== *)
(** * The specification's reading of the extractor *)
(* ================================================================== *)

(** The definitions of this module follow the words of the specification
    (sections 4.2 and 8), not the code: they are what the extractor is
    compared with. The comparison of one character of the text with one of
    a label is a parameter: [exact] compares code units, [any_case] ignores
    the case of ASCII letters. *)
Module Spec.
Import Extractor.

Definition exact (c p : code_unit) : bool := (c =? p)%N.

Definition any_case (c p : code_unit) : bool :=
  (Regex.canonicalize true c =? Regex.canonicalize true p)%N.

(** The text after the prefix [p] of [s], when [s] starts with [p]. *)
Fixpoint strip_prefix (eqc : code_unit -> code_unit -> bool) (p s : jsstring)
  : option jsstring :=
  match p with
  | [] => Some s
  | c :: p' =>
      match s with
      | ch :: s' => if eqc ch c then strip_prefix eqc p' s' else None
      | [] => None
      end
  end.

Definition starts_with (eqc : code_unit -> code_unit -> bool) (p : string)
    (s : jsstring) : bool :=
  match strip_prefix eqc (lit p) s with Some _ => true | None => false end.

(** The suffixes of a text, one for each position, in text order. *)
Fixpoint tails (s : jsstring) : list jsstring :=
  s :: match s with [] => [] | _ :: s' => tails s' end.

(** A label "DETAILED REFLECTION <number>:" at the start of [s], in any
    letter case: the label's text and the text after it. *)
Definition detailed_label (s : jsstring) : option (jsstring * jsstring) :=
  match strip_prefix any_case (lit "DETAILED REFLECTION") s with
  | None => None
  | Some t =>
      let spaces1 := take_while is_white_space t in
      let t1 := drop_while is_white_space t in
      let digits := take_while is_digit t1 in
      let t2 := drop_while is_digit t1 in
      let spaces2 := take_while is_white_space t2 in
      let t3 := drop_while is_white_space t2 in
      match digits, t3 with
      | _ :: _, c :: t4 =>
          if (c =? 0x3A)%N
          then Some (firstn 19 s ++ spaces1 ++ digits ++ spaces2 ++ [c], t4)
          else None
      | _, _ => None
      end
  end.

Definition is_detailed_label (s : jsstring) : bool :=
  match detailed_label s with Some _ => true | None => false end.

(** Where the body of a detailed section stops: at the next detailed label,
    at a "Reflection:" label, at "####" or at the end of the text. *)
Definition detailed_stop (eqc : code_unit -> code_unit -> bool) (s : jsstring) : bool :=
  is_detailed_label s || starts_with eqc "Reflection:" s
  || starts_with exact "####" s
  || match s with [] => true | _ :: _ => false end.

(** Where the body of the brief section stops: at "####" or at the end. *)
Definition brief_stop (s : jsstring) : bool :=
  starts_with exact "####" s || match s with [] => true | _ :: _ => false end.

(** The text of [s] before the first position where [stop] holds. *)
Fixpoint until (stop : jsstring -> bool) (s : jsstring) : jsstring :=
  if stop s then []
  else match s with [] => [] | c :: s' => c :: until stop s' end.

(** The detailed reflection that starts at the beginning of [s], if a label
    stands there: its type is the label without its colon, trimmed; its
    content is the text up to the next stop, trimmed. *)
Definition detailed_at (eqc : code_unit -> code_unit -> bool) (s : jsstring)
  : list reflection :=
  match detailed_label s with
  | Some (lbl, t) =>
      [Reflection (trim (removelast lbl)) (trim (until (detailed_stop eqc) t))]
  | None => []
  end.

(** The positions of the text where a detailed label starts. *)
Definition label_positions (text : jsstring) : list nat :=
  filter (fun i => is_detailed_label (skipn i text)) (seq 0 (List.length text)).

(** One detailed reflection for every position where a label starts, in
    text order. *)
Definition detailed (eqc : code_unit -> code_unit -> bool) (text : jsstring)
  : list reflection :=
  flat_map (detailed_at eqc) (tails text).

(** The brief reflection: the section at the first position where the
    label "Reflection:" stands, if there is one. *)
Definition brief (eqc : code_unit -> code_unit -> bool) (text : jsstring)
  : list reflection :=
  match find (starts_with eqc "Reflection:") (tails text) with
  | Some s =>
      [Reflection (lit "BRIEF REFLECTION") (trim (until brief_stop (skipn 11 s)))]
  | None => []
  end.

(** The extractor's result as the specification words it: the detailed
    reflections in text order, then the brief one. *)
Definition extraction (eqc : code_unit -> code_unit -> bool) (text : jsstring)
  : list reflection :=
  detailed eqc text ++ brief eqc text.

(** The most recent user message of a conversation: the last entry of
    [messages] whose role is "user". *)
Definition most_recent_user_message (messages : list Handler.message)
  : option Handler.message :=
  find (fun m => if list_eq_dec N.eq_dec (Handler.role m) (lit "user")
                 then true else false)
    (rev messages).

End Spec.


(* ================================================================== *)
(** * Properties *)
(* ================================================================== *)

Unset Implicit Arguments.


Module RegexFacts.
Import Regex.

Lemma mstate_eta (x : mstate) : MState (rest x) (cap1 x) = x.
Proof. destruct x; reflexivity. Qed.

Lemma take_drop_while {A} (p : A -> bool) (l : list A) :
  take_while p l ++ drop_while p l = l.
Proof.
  induction l as [|a l IH]; simpl; [reflexivity|].
  destruct (p a); simpl; [now rewrite IH | reflexivity].
Qed.

Lemma drop_while_head {A} (p : A -> bool) (l : list A) :
  match drop_while p l with [] => True | a :: _ => p a = false end.
Proof.
  induction l as [|a l IH]; simpl; [exact I|].
  destruct (p a) eqn:E; [exact IH | exact E].
Qed.

Lemma drop_while_length {A} (p : A -> bool) (l : list A) :
  (List.length (drop_while p l) <= List.length l)%nat.
Proof.
  induction l as [|a l IH]; simpl; [lia|]. destruct (p a); simpl; lia.
Qed.

(** A literal string matches when the text starts with it, compared up to
    [canonicalize]. *)
Lemma matcher_chars ic (l : jsstring) (k : continuation) (x : mstate) :
  matcher ic (fold_right (fun c r => Seq (Char c) r) Empty l) k x =
  match Spec.strip_prefix
          (fun ch c => (canonicalize ic ch =? canonicalize ic c)%N) l (rest x) with
  | Some t => k (MState t (cap1 x))
  | None => None
  end.
Proof.
  revert x; induction l as [|c l IH]; intros x; simpl.
  - now rewrite mstate_eta.
  - destruct (rest x) as [|ch t]; [reflexivity|].
    destruct (canonicalize ic ch =? canonicalize ic c)%N; [|reflexivity].
    now rewrite IH.
Qed.

Lemma ltb_length_cons {A} (c : A) (t : list A) :
  (List.length t <? List.length (c :: t))%nat = true.
Proof. apply Nat.ltb_lt; simpl; lia. Qed.

(** Greedy repetition of a class, when what follows cannot start with a
    character of the class: all the characters of the class are taken. *)
Lemma repeat_greedy_class ic (p : code_unit -> bool) (k : continuation) :
  (forall c t cap, p c = true -> k (MState (c :: t) cap) = None) ->
  forall fuel s cap, (List.length s < fuel)%nat ->
  repeat_matcher fuel true (matcher ic (Class p)) k (MState s cap) =
  k (MState (drop_while p s) cap).
Proof.
  intros Hk fuel.
  assert (Hm : forall k' x, matcher ic (Class p) k' x =
            match rest x with
            | ch :: t => if p ch then k' (MState t (cap1 x)) else None
            | [] => None
            end) by reflexivity.
  revert Hm. generalize (matcher ic (Class p)) as m. intros m Hm.
  induction fuel as [|fuel IH]; intros s cap Hf; [lia|].
  cbn [repeat_matcher]. rewrite Hm.
  destruct s as [|c t]; cbn [rest cap1 drop_while]; [reflexivity|].
  destruct (p c) eqn:Hp; [|reflexivity].
  rewrite ltb_length_cons, IH by (simpl in Hf; lia).
  destruct (k (MState (drop_while p t) cap)) eqn:E; [reflexivity|].
  now apply Hk.
Qed.

(** Lazy repetition of a class that holds every character, followed by a
    test [stop] of the remaining text: the repetition ends at the first
    position where [stop] holds. *)
Lemma repeat_lazy_until ic (p : code_unit -> bool) (k : continuation)
    (stop : jsstring -> bool) (g : mstate -> mstate) :
  (forall c, p c = true) ->
  (forall y, k y = if stop (rest y) then Some (g y) else None) ->
  stop [] = true ->
  forall fuel s cap, (List.length s < fuel)%nat ->
  repeat_matcher fuel false (matcher ic (Class p)) k (MState s cap) =
  Some (g (MState (skipn (List.length (Spec.until stop s)) s) cap)).
Proof.
  intros Hp Hk Hnil fuel.
  assert (Hm : forall k' x, matcher ic (Class p) k' x =
            match rest x with
            | ch :: t => if p ch then k' (MState t (cap1 x)) else None
            | [] => None
            end) by reflexivity.
  revert Hm. generalize (matcher ic (Class p)) as m. intros m Hm.
  induction fuel as [|fuel IH]; intros s cap Hf; [lia|].
  cbn [repeat_matcher]. rewrite Hk. cbn [rest].
  destruct s as [|c t].
  - now rewrite Hnil; cbn [Spec.until]; rewrite Hnil.
  - cbn [Spec.until]. destruct (stop (c :: t)) eqn:Hs; [reflexivity|].
    rewrite Hm. cbn [rest cap1]. rewrite Hp, ltb_length_cons.
    cbn [List.length skipn]. apply IH. simpl in Hf; lia.
Qed.

End RegexFacts.


Module ExtractorFacts.
Import Regex Extractor RegexFacts.

(** ** Code units *)

Lemma white_space_range c :
  is_white_space c = true -> (9 <= c <= 13 \/ c = 32 \/ 160 <= c)%N.
Proof.
  unfold is_white_space.
  rewrite !orb_true_iff, !andb_true_iff, !N.eqb_eq, !N.leb_le. lia.
Qed.

Lemma digit_range c : is_digit c = true -> (48 <= c <= 57)%N.
Proof. unfold is_digit. rewrite andb_true_iff, !N.leb_le. lia. Qed.

Lemma canonicalize_outside c :
  ~ (97 <= c <= 122)%N -> canonicalize true c = c.
Proof.
  intros H. unfold canonicalize. cbn [andb].
  destruct (N.leb_spec 97 c); destruct (N.leb_spec c 122); cbn [andb];
    try reflexivity; lia.
Qed.

Lemma canonicalize_letter c :
  (97 <= c <= 122)%N -> canonicalize true c = (c - 32)%N.
Proof.
  intros [H1 H2]. unfold canonicalize. cbn [andb].
  apply N.leb_le in H1, H2. now rewrite H1, H2.
Qed.

(** A pattern character that is not a letter is matched by itself only. *)
Lemma any_case_plain c p :
  (p < 65 \/ 90 < p < 97 \/ 122 < p)%N -> Spec.any_case c p = (c =? p)%N.
Proof.
  intros Hp. unfold Spec.any_case.
  rewrite (canonicalize_outside p) by lia.
  destruct (N.le_gt_cases 97 c) as [H1|H1];
    [destruct (N.le_gt_cases c 122) as [H2|H2]|].
  - rewrite canonicalize_letter by lia.
    destruct (N.eqb_spec (c - 32) p); destruct (N.eqb_spec c p); try reflexivity; lia.
  - now rewrite canonicalize_outside by lia.
  - now rewrite canonicalize_outside by lia.
Qed.

(** What a character that is matched by one pattern character says about
    another pattern character. *)
Lemma any_case_other c p q :
  Spec.any_case c p = true -> canonicalize true p <> canonicalize true q ->
  Spec.any_case c q = false.
Proof.
  unfold Spec.any_case. intros H Hn. apply N.eqb_eq in H. apply N.eqb_neq. congruence.
Qed.

Lemma white_space_not_digit c : is_white_space c = true -> is_digit c = false.
Proof.
  intros H. apply white_space_range in H.
  destruct (is_digit c) eqn:E; [apply digit_range in E; lia | reflexivity].
Qed.

Lemma digit_not_white_space c : is_digit c = true -> is_white_space c = false.
Proof.
  intros H. destruct (is_white_space c) eqn:E; [|reflexivity].
  now rewrite (white_space_not_digit _ E) in H.
Qed.

Lemma white_space_not_colon c : is_white_space c = true -> (c =? 58)%N = false.
Proof. intros H. apply white_space_range in H. apply N.eqb_neq. lia. Qed.

Lemma digit_not_colon c : is_digit c = true -> (c =? 58)%N = false.
Proof. intros H. apply digit_range in H. apply N.eqb_neq. lia. Qed.

Lemma matcher_colon k x :
  matcher true (Char 58%N) k x =
  match rest x with
  | c :: t => if (c =? 58)%N then k (MState t (cap1 x)) else None
  | [] => None
  end.
Proof.
  cbn [matcher]. destruct (rest x) as [|c t]; [reflexivity|].
  fold (Spec.any_case c 58%N). now rewrite any_case_plain by lia.
Qed.

(** [\s*:] after the digits of a label. *)
Lemma matcher_spaces_colon k s cap :
  matcher true (Seq (Star true ws) (Char 58%N)) k (MState s cap) =
  match drop_while is_white_space s with
  | c :: t => if (c =? 58)%N then k (MState t cap) else None
  | [] => None
  end.
Proof.
  change (matcher true (Seq (Star true ws) (Char 58%N)) k (MState s cap))
    with (repeat_matcher (S (List.length s)) true (matcher true (Class is_white_space))
            (matcher true (Char 58%N) k) (MState s cap)).
  rewrite repeat_greedy_class; [|intros c t cap' Hc|lia].
  - now rewrite matcher_colon.
  - rewrite matcher_colon. cbn [rest]. now rewrite white_space_not_colon.
Qed.

(** The label pattern matches exactly where the specification sees a
    label, and goes on after the label's colon. *)
Lemma matcher_label k x :
  matcher true label k x =
  match Spec.detailed_label (rest x) with
  | Some (_, t) => k (MState t (cap1 x))
  | None => None
  end.
Proof.
  unfold label, Spec.detailed_label.
  change (matcher true (Seq (Str "DETAILED REFLECTION") ?r) k x)
    with (matcher true (Str "DETAILED REFLECTION") (matcher true r k) x).
  unfold Str. rewrite matcher_chars.
  change (fun ch c => (canonicalize true ch =? canonicalize true c)%N)
    with Spec.any_case.
  destruct (Spec.strip_prefix Spec.any_case (lit "DETAILED REFLECTION") (rest x))
    as [t|]; [|reflexivity].
  set (tail := Seq (Star true ws) (Char 58%N)).
  change (matcher true (Seq (Star true ws) (Seq (Plus digit) tail)) k
            (MState t (cap1 x)))
    with (repeat_matcher (S (List.length t)) true (matcher true (Class is_white_space))
            (matcher true (Seq (Plus digit) tail) k) (MState t (cap1 x))).
  assert (Hplus : forall s cap,
             matcher true (Seq (Plus digit) tail) k (MState s cap) =
             match s with
             | d :: s' =>
                 if is_digit d
                 then matcher true tail k (MState (drop_while is_digit s') cap)
                 else None
             | [] => None
             end).
  { intros s cap.
    change (matcher true (Seq (Plus digit) tail) k (MState s cap))
      with (match s with
            | d :: s' =>
                if is_digit d
                then repeat_matcher (S (List.length s')) true
                       (matcher true (Class is_digit)) (matcher true tail k)
                       (MState s' cap)
                else None
            | [] => None
            end).
    destruct s as [|d s']; [reflexivity|].
    destruct (is_digit d); [|reflexivity].
    rewrite repeat_greedy_class; [reflexivity| |lia].
    intros c t' cap' Hc. unfold tail. rewrite matcher_spaces_colon.
    cbn [drop_while]. rewrite (digit_not_white_space _ Hc).
    now rewrite (digit_not_colon _ Hc). }
  rewrite repeat_greedy_class; [|intros c t' cap' Hc|lia].
  2:{ rewrite Hplus. now rewrite (white_space_not_digit _ Hc). }
  rewrite Hplus.
  destruct (drop_while is_white_space t) as [|d t1'] eqn:Et1; [reflexivity|].
  cbn [take_while drop_while].
  destruct (is_digit d) eqn:Hd; [|reflexivity].
  unfold tail. rewrite matcher_spaces_colon.
  destruct (drop_while is_white_space (drop_while is_digit t1')) as [|c t4];
    [reflexivity|].
  destruct (c =? 58)%N; reflexivity.
Qed.

End ExtractorFacts.


Module LabelFacts.
Import Regex Extractor RegexFacts ExtractorFacts.

(** ** Prefixes *)

Lemma strip_prefix_app eqc p s t :
  Spec.strip_prefix eqc p s = Some t ->
  s = firstn (List.length p) s ++ t /\ List.length (firstn (List.length p) s) = List.length p.
Proof.
  revert s; induction p as [|c p IH]; intros s H; cbn in H.
  - injection H as <-. now split.
  - destruct s as [|ch s]; [discriminate|].
    destruct (eqc ch c); [|discriminate].
    destruct (IH _ H) as [H1 H2]. cbn [List.length firstn app]. split; congruence.
Qed.

Lemma strip_prefix_skipn eqc p s t :
  Spec.strip_prefix eqc p s = Some t -> t = skipn (List.length p) s.
Proof.
  revert s; induction p as [|c p IH]; intros s H; cbn in H.
  - now injection H as <-.
  - destruct s as [|ch s]; [discriminate|].
    destruct (eqc ch c); [|discriminate]. cbn [List.length skipn]. auto.
Qed.

Lemma strip_prefix_ext eqc1 eqc2 p s :
  (forall c q, In q p -> eqc1 c q = eqc2 c q) ->
  Spec.strip_prefix eqc1 p s = Spec.strip_prefix eqc2 p s.
Proof.
  revert s; induction p as [|q p IH]; intros s H; [reflexivity|].
  destruct s as [|c s]; [reflexivity|]. cbn [Spec.strip_prefix].
  rewrite (H c q) by now left. rewrite IH; [reflexivity|].
  intros; apply H; now right.
Qed.

Lemma hashes_any_case s :
  Spec.starts_with Spec.any_case "####" s = Spec.starts_with Spec.exact "####" s.
Proof.
  unfold Spec.starts_with. rewrite (@strip_prefix_ext Spec.any_case Spec.exact); [reflexivity|].
  intros c q Hq. assert (q = 35%N) as ->.
  { cbn in Hq. intuition congruence. }
  apply any_case_plain. lia.
Qed.

Lemma take_while_Forall {A} (p : A -> bool) l :
  Forall (fun c => p c = true) (take_while p l).
Proof.
  induction l as [|a l IH]; cbn; [constructor|].
  destruct (p a) eqn:E; constructor; assumption.
Qed.

Lemma take_while_app_stop {A} (p : A -> bool) a b r :
  Forall (fun c => p c = true) a -> p b = false -> take_while p (a ++ b :: r) = a.
Proof.
  intros Ha Hb. induction Ha as [|c a Hc Ha IH]; cbn.
  - now rewrite Hb.
  - now rewrite Hc, IH.
Qed.

(** ** The text before the first stop *)

Lemma until_length stop s : (List.length (Spec.until stop s) <= List.length s)%nat.
Proof.
  induction s as [|c s IH]; cbn; destruct (stop _); cbn; lia.
Qed.

Lemma until_prefix stop s :
  firstn (List.length (Spec.until stop s)) s = Spec.until stop s.
Proof.
  induction s as [|c s IH]; cbn; destruct (stop _); cbn; congruence.
Qed.

Lemma until_not_stop stop s p :
  (p < List.length (Spec.until stop s))%nat -> stop (skipn p s) = false.
Proof.
  revert p; induction s as [|c s IH]; intros p; cbn [Spec.until].
  - destruct (stop []); cbn; lia.
  - destruct (stop (c :: s)) eqn:E; cbn [List.length]; [lia|].
    destruct p as [|p]; [intros _; exact E|]. intros H. apply IH. lia.
Qed.

Lemma until_stops stop s :
  stop [] = true -> stop (skipn (List.length (Spec.until stop s)) s) = true.
Proof.
  intros Hnil. induction s as [|c s IH]; cbn [Spec.until].
  - now rewrite Hnil.
  - destruct (stop (c :: s)) eqn:E; [exact E|exact IH].
Qed.

(** ** Suffixes *)

Lemma flat_map_tails_skip {B} (f : jsstring -> list B) n s :
  (n <= List.length s)%nat ->
  (forall p, (p < n)%nat -> f (skipn p s) = []) ->
  flat_map f (Spec.tails s) = flat_map f (Spec.tails (skipn n s)).
Proof.
  revert s; induction n as [|n IH]; intros s Hn H; [reflexivity|].
  destruct s as [|c s]; [cbn in Hn; lia|].
  cbn [Spec.tails flat_map skipn].
  assert (H0 : f (c :: s) = []) by (apply (H 0%nat); lia).
  rewrite H0. cbn [app]. apply IH; [cbn in Hn; lia|]. intros p Hp. apply (H (S p)). lia.
Qed.

End LabelFacts.


Module ShapeFacts.
Import Regex Extractor RegexFacts ExtractorFacts LabelFacts.

(** ** The shape of a label *)

Lemma not_letter_D c : (c < 65 \/ 160 <= c)%N -> Spec.any_case c 68%N = false.
Proof.
  intros H. unfold Spec.any_case. rewrite (canonicalize_outside c) by lia.
  apply N.eqb_neq. change (canonicalize true 68%N) with 68%N. lia.
Qed.

Lemma letter_not_colon c p :
  Spec.any_case c p = true -> canonicalize true p <> 58%N -> (c =? 58)%N = false.
Proof.
  intros H Hp. rewrite <- (any_case_plain c 58%N) by lia.
  now apply (any_case_other _ _ _ H).
Qed.

Ltac literal s :=
  let v := eval vm_compute in (lit s) in change (lit s) with v in *.

Ltac other_character :=
  cbn [skipn Spec.strip_prefix];
  repeat match goal with
         | E : Spec.any_case ?c ?p = true |- context [Spec.any_case ?c ?q] =>
             first [ rewrite E
                   | rewrite (any_case_other c p q E) by (vm_compute; discriminate) ]
         end;
  reflexivity.

(** The text "DETAILED REFLECTION" does not start again inside itself, and
    holds no colon. *)
Lemma prefix_shape s t0 :
  Spec.strip_prefix Spec.any_case (lit "DETAILED REFLECTION") s = Some t0 ->
  Forall (fun c => (c =? 58)%N = false) (firstn 19 s) /\
  (forall p, (0 < p < 19)%nat ->
     Spec.strip_prefix Spec.any_case (lit "DETAILED REFLECTION") (skipn p s) = None).
Proof.
  literal "DETAILED REFLECTION"%string. intros H.
  do 19 (destruct s as [|? s]; [discriminate H|];
         cbn [Spec.strip_prefix] in H;
         match type of H with
         | (if Spec.any_case ?c ?p then _ else _) = _ =>
             destruct (Spec.any_case c p) eqn:?; [|discriminate H]
         end).
  split.
  - cbn [firstn].
    repeat constructor;
      match goal with
      | E : Spec.any_case ?c ?p = true |- (?c =? _)%N = false =>
          apply (letter_not_colon c p E); vm_compute; discriminate
      end.
  - intros p Hp.
    do 19 (destruct p as [|p]; [try lia; other_character|]). lia.
Qed.

Lemma white_space_not_D c : is_white_space c = true -> Spec.any_case c 68%N = false.
Proof. intros H. apply white_space_range in H. apply not_letter_D. lia. Qed.

Lemma digit_not_D c : is_digit c = true -> Spec.any_case c 68%N = false.
Proof. intros H. apply digit_range in H. apply not_letter_D. lia. Qed.

(** What a label found by [detailed_label] looks like: the nineteen
    letters, then white space, digits, white space, and the colon. *)
Lemma detailed_label_shape s lbl t :
  Spec.detailed_label s = Some (lbl, t) ->
  exists mid,
    s = lbl ++ t /\ lbl = (firstn 19 s ++ mid) ++ [58%N] /\
    List.length (firstn 19 s) = 19%nat /\
    Forall (fun c => (c =? 58)%N = false) (firstn 19 s ++ mid) /\
    Forall (fun c => Spec.any_case c 68%N = false) (mid ++ [58%N]) /\
    (forall p, (0 < p < 19)%nat ->
       Spec.strip_prefix Spec.any_case (lit "DETAILED REFLECTION") (skipn p s) = None).
Proof.
  unfold Spec.detailed_label.
  destruct (Spec.strip_prefix Spec.any_case (lit "DETAILED REFLECTION") s)
    as [t0|] eqn:E0; [|discriminate].
  destruct (prefix_shape _ _ E0) as [Hcolon Hover].
  destruct (strip_prefix_app _ _ _ _ E0) as [Hs Hlen].
  change (List.length (lit "DETAILED REFLECTION")) with 19%nat in Hs, Hlen.
  pose proof (take_drop_while is_white_space t0) as H1.
  pose proof (take_while_Forall is_white_space t0) as F1.
  set (sp1 := take_while is_white_space t0) in *.
  set (t1 := drop_while is_white_space t0) in *.
  pose proof (take_drop_while is_digit t1) as H2.
  pose proof (take_while_Forall is_digit t1) as F2.
  set (digs := take_while is_digit t1) in *.
  set (t2 := drop_while is_digit t1) in *.
  pose proof (take_drop_while is_white_space t2) as H3.
  pose proof (take_while_Forall is_white_space t2) as F3.
  set (sp2 := take_while is_white_space t2) in *.
  set (t3 := drop_while is_white_space t2) in *.
  destruct digs as [|d digs'] eqn:Ed; [discriminate|]. rewrite <- Ed in *.
  destruct t3 as [|c t4]; [discriminate|].
  destruct (N.eqb_spec c 58); [subst c|discriminate].
  intros H. injection H as <- <-.
  exists (sp1 ++ digs ++ sp2). repeat split.
  - rewrite Hs at 1. rewrite <- H1, <- H2, <- H3. now rewrite <- !app_assoc.
  - now rewrite <- !app_assoc.
  - exact Hlen.
  - rewrite !Forall_app. repeat split.
    + exact Hcolon.
    + eapply Forall_impl; [|exact F1]. intros a; apply white_space_not_colon.
    + eapply Forall_impl; [|exact F2]. intros a; apply digit_not_colon.
    + eapply Forall_impl; [|exact F3]. intros a; apply white_space_not_colon.
  - rewrite !Forall_app. repeat split.
    + eapply Forall_impl; [|exact F1]. intros a; apply white_space_not_D.
    + eapply Forall_impl; [|exact F2]. intros a; apply digit_not_D.
    + eapply Forall_impl; [|exact F3]. intros a; apply white_space_not_D.
    + repeat constructor.
  - exact Hover.
Qed.

Lemma detailed_label_app s lbl t :
  Spec.detailed_label s = Some (lbl, t) -> s = lbl ++ t /\ (0 < List.length lbl)%nat.
Proof.
  intros H. destruct (detailed_label_shape _ _ _ H) as (mid & Hs & Hl & _).
  split; [exact Hs|]. rewrite Hl, length_app. cbn. lia.
Qed.

Lemma strip_prefix_not_first eqc c pat m t q :
  Forall (fun ch => eqc ch c = false) m -> (q < List.length m)%nat ->
  Spec.strip_prefix eqc (c :: pat) (skipn q (m ++ t)) = None.
Proof.
  intros Hm. revert q. induction Hm as [|ch m Hch Hm IH]; intros q Hq; [cbn in Hq; lia|].
  destruct q as [|q].
  - cbn. now rewrite Hch.
  - cbn [app skipn]. apply IH. cbn in Hq. lia.
Qed.

(** No label starts inside a label. *)
Lemma label_no_overlap s lbl t p :
  Spec.detailed_label s = Some (lbl, t) -> (0 < p < List.length lbl)%nat ->
  Spec.detailed_label (skipn p s) = None.
Proof.
  intros H Hp. destruct (detailed_label_shape _ _ _ H) as (mid & Hs & Hl & Hlen & _ & HD & Hover).
  assert (E : Spec.strip_prefix Spec.any_case (lit "DETAILED REFLECTION") (skipn p s) = None).
  { destruct (Nat.lt_ge_cases p 19) as [Hlt|Hge]; [apply Hover; lia|].
    rewrite Hs, Hl, <- !app_assoc, skipn_app, Hlen.
    rewrite skipn_all2 by lia. cbn [app].
    literal "DETAILED REFLECTION"%string.
    change (mid ++ 58%N :: t) with (mid ++ [58%N] ++ t). rewrite app_assoc.
    apply strip_prefix_not_first; [exact HD|].
    rewrite Hl, !length_app, Hlen in Hp. rewrite length_app.
    cbn [List.length] in Hp |- *. unfold code_unit in *. lia. }
  unfold Spec.detailed_label. now rewrite E.
Qed.

(** [match[0].split(':')[0]] is the label without its colon. *)
Lemma split_first_label s lbl t body :
  Spec.detailed_label s = Some (lbl, t) ->
  split_first 58%N (lbl ++ body) = removelast lbl.
Proof.
  intros H. destruct (detailed_label_shape _ _ _ H) as (mid & _ & Hl & _ & Hc & _).
  rewrite Hl, removelast_last, <- app_assoc. cbn [app].
  unfold split_first. apply take_while_app_stop.
  - eapply Forall_impl; [|exact Hc]. cbv beta. now intros c ->.
  - reflexivity.
Qed.

End ShapeFacts.


Module PatternFacts.
Import Regex Extractor RegexFacts ExtractorFacts LabelFacts ShapeFacts.

(** ** The two patterns *)

Lemma matcher_seq ic r1 r2 k x :
  matcher ic (Seq r1 r2) k x = matcher ic r1 (matcher ic r2 k) x.
Proof. reflexivity. Qed.

Lemma matcher_alt ic r1 r2 k x :
  matcher ic (Alt r1 r2) k x =
  match matcher ic r1 k x with Some z => Some z | None => matcher ic r2 k x end.
Proof. reflexivity. Qed.

Lemma matcher_lookahead ic r k x :
  matcher ic (Lookahead r) k x =
  match matcher ic r Some x with
  | Some y => k (MState (rest x) (cap1 y))
  | None => None
  end.
Proof. reflexivity. Qed.

Lemma matcher_group_star ic r k x :
  matcher ic (Group (Star false r)) k x =
  repeat_matcher (S (List.length (rest x))) false (matcher ic r)
    (fun y =>
       k (MState (rest y)
            (Some (firstn (List.length (rest x) - List.length (rest y)) (rest x)))))
    x.
Proof. reflexivity. Qed.

Lemma matcher_str k s x :
  matcher true (Str s) k x =
  match Spec.strip_prefix Spec.any_case (lit s) (rest x) with
  | Some t => k (MState t (cap1 x))
  | None => None
  end.
Proof. unfold Str. now rewrite matcher_chars. Qed.

Lemma matcher_end ic k x :
  matcher ic EndOfInput k x = match rest x with [] => k x | _ :: _ => None end.
Proof. reflexivity. Qed.

(** The lookahead of the detailed pattern holds exactly at a stop. *)
Lemma lookahead_detailed k x :
  matcher true
    (Lookahead (Alt label (Alt (Str "Reflection:") (Alt (Str "####") EndOfInput))))
    k x =
  if (Spec.detailed_stop Spec.any_case) (rest x) then k x else None.
Proof.
  destruct x as [s cap].
  rewrite matcher_lookahead, matcher_alt, matcher_label. cbn [rest cap1].
  unfold Spec.detailed_stop, Spec.is_detailed_label.
  destruct (Spec.detailed_label s) as [[lbl t]|].
  { reflexivity. }
  rewrite matcher_alt, matcher_str. rewrite <- hashes_any_case. cbn [rest cap1].
  unfold Spec.starts_with.
  destruct (Spec.strip_prefix Spec.any_case (lit "Reflection:") s).
  { reflexivity. }
  rewrite matcher_alt, matcher_str. cbn [rest cap1].
  destruct (Spec.strip_prefix Spec.any_case (lit "####") s).
  { reflexivity. }
  rewrite matcher_end. cbn [orb rest].
  destruct s; reflexivity.
Qed.

Lemma lookahead_brief k x :
  matcher true (Lookahead (Alt (Str "####") EndOfInput)) k x =
  if Spec.brief_stop (rest x) then k x else None.
Proof.
  destruct x as [s cap].
  rewrite matcher_lookahead, matcher_alt, matcher_str. cbn [rest cap1].
  unfold Spec.brief_stop. rewrite <- hashes_any_case. unfold Spec.starts_with.
  destruct (Spec.strip_prefix Spec.any_case (lit "####") s).
  { reflexivity. }
  rewrite matcher_end. cbn [orb rest].
  destruct s; reflexivity.
Qed.

Lemma any_all c : is_white_space c || negb (is_white_space c) = true.
Proof. apply orb_negb_r. Qed.

(** The lazy group [([\s\S]*?)] before a lookahead: the text up to the
    first stop. *)
Lemma matcher_body (st : jsstring -> bool) (la : regex) t cap :
  (forall k x, matcher true (Lookahead la) k x = if st (rest x) then k x else None) ->
  st [] = true ->
  matcher true (Seq (Group (Star false any)) (Lookahead la)) Some (MState t cap) =
  Some (MState (skipn (List.length (Spec.until st t)) t) (Some (Spec.until st t))).
Proof.
  intros Hla Hnil. rewrite matcher_seq, matcher_group_star. cbn [rest]. unfold any.
  rewrite (repeat_lazy_until true _ _ st
             (fun y => MState (rest y)
                         (Some (firstn (List.length t - List.length (rest y)) t))));
    [|exact any_all| |exact Hnil|lia].
  - cbn [rest]. rewrite length_skipn.
    pose proof (until_length st t).
    replace (List.length t - (List.length t - List.length (Spec.until st t)))%nat
      with (List.length (Spec.until st t)) by lia.
    now rewrite until_prefix.
  - intros y. now rewrite Hla.
Qed.

Lemma matcher_detailed s :
  matcher true detailedReflectionRegex Some (MState s None) =
  match Spec.detailed_label s with
  | Some (_, t) =>
      Some (MState (skipn (List.length (Spec.until (Spec.detailed_stop Spec.any_case) t)) t) (Some (Spec.until (Spec.detailed_stop Spec.any_case) t)))
  | None => None
  end.
Proof.
  unfold detailedReflectionRegex. rewrite matcher_seq, matcher_label. cbn [rest cap1].
  destruct (Spec.detailed_label s) as [[lbl t]|]; [|reflexivity].
  apply matcher_body; [exact lookahead_detailed | reflexivity].
Qed.

Lemma matcher_brief s :
  matcher true briefReflectionRegex Some (MState s None) =
  match Spec.strip_prefix Spec.any_case (lit "Reflection:") s with
  | Some t =>
      Some (MState (skipn (List.length (Spec.until Spec.brief_stop t)) t)
              (Some (Spec.until Spec.brief_stop t)))
  | None => None
  end.
Proof.
  unfold briefReflectionRegex. rewrite matcher_seq, matcher_str. cbn [rest cap1].
  destruct (Spec.strip_prefix Spec.any_case (lit "Reflection:") s) as [t|]; [|reflexivity].
  apply matcher_body; [exact lookahead_brief | reflexivity].
Qed.

End PatternFacts.


Module LoopFacts.
Import Regex Extractor RegexFacts ExtractorFacts LabelFacts ShapeFacts PatternFacts.

(** ** The search for the next match *)

Lemma detailed_at_none eqc s : Spec.detailed_label s = None -> Spec.detailed_at eqc s = [].
Proof. unfold Spec.detailed_at. now intros ->. Qed.

Lemma stop_label s : (Spec.detailed_stop Spec.any_case) s = false -> Spec.detailed_label s = None.
Proof.
  unfold Spec.detailed_stop, Spec.is_detailed_label.
  destruct (Spec.detailed_label s); [discriminate | reflexivity].
Qed.

(** A match that starts at the beginning of [s]: its text, and what is
    left of the text order after it. *)
Lemma match_here s lbl t :
  Spec.detailed_label s = Some (lbl, t) ->
  firstn (List.length s - List.length (skipn (List.length (Spec.until (Spec.detailed_stop Spec.any_case) t)) t)) s
    = lbl ++ Spec.until (Spec.detailed_stop Spec.any_case) t /\
  (List.length (lbl ++ Spec.until (Spec.detailed_stop Spec.any_case) t) <= List.length s)%nat /\
  flat_map (Spec.detailed_at Spec.any_case) (Spec.tails s) =
  Reflection (trim (removelast lbl)) (trim (Spec.until (Spec.detailed_stop Spec.any_case) t))
    :: flat_map (Spec.detailed_at Spec.any_case)
         (Spec.tails (skipn (List.length (lbl ++ Spec.until (Spec.detailed_stop Spec.any_case) t)) s)).
Proof.
  intros H. destruct (detailed_label_app _ _ _ H) as [Hs Hl].
  pose proof (until_length (Spec.detailed_stop Spec.any_case) t) as Hn.
  pose proof (until_prefix (Spec.detailed_stop Spec.any_case) t) as Hpre.
  set (body := Spec.until (Spec.detailed_stop Spec.any_case) t) in *.
  assert (Hlen : List.length s = (List.length lbl + List.length t)%nat)
    by now rewrite Hs at 1; rewrite length_app.
  repeat split.
  - rewrite length_skipn.
    replace (List.length s - (List.length t - List.length body))%nat
      with (List.length lbl + List.length body)%nat by lia.
    rewrite Hs at 1. now rewrite firstn_app_2, Hpre.
  - rewrite length_app. lia.
  - destruct s as [|c s']; [cbn in Hlen; lia|].
    cbn [Spec.tails flat_map]. unfold Spec.detailed_at at 1. rewrite H.
    cbn [app]. fold body. f_equal.
    rewrite length_app.
    destruct (List.length lbl) as [|n] eqn:En; [lia|].
    cbn [Nat.add skipn].
    apply flat_map_tails_skip; [cbn in Hlen; lia|].
    intros p Hp. apply detailed_at_none.
    change (skipn p s') with (skipn (S p) (c :: s')).
    destruct (Nat.lt_ge_cases (S p) (List.length lbl)) as [Hlt|Hge].
    + apply (label_no_overlap _ _ _ _ H). lia.
    + rewrite Hs, skipn_app, skipn_all2 by lia. cbn [app].
      apply stop_label. apply until_not_stop. fold body. lia.
Qed.

Lemma search_detailed s : forall i,
  match search true detailedReflectionRegex i s with
  | None => flat_map (Spec.detailed_at Spec.any_case) (Spec.tails s) = []
  | Some a =>
      exists j lbl t,
        a = MatchArray (i + j) (lbl ++ Spec.until (Spec.detailed_stop Spec.any_case) t) (Some (Spec.until (Spec.detailed_stop Spec.any_case) t)) /\
        Spec.detailed_label (skipn j s) = Some (lbl, t) /\
        (j + List.length (lbl ++ Spec.until (Spec.detailed_stop Spec.any_case) t) <= List.length s)%nat /\
        flat_map (Spec.detailed_at Spec.any_case) (Spec.tails s) =
        Reflection (trim (removelast lbl)) (trim (Spec.until (Spec.detailed_stop Spec.any_case) t))
          :: flat_map (Spec.detailed_at Spec.any_case)
               (Spec.tails (skipn (j + List.length (lbl ++ Spec.until (Spec.detailed_stop Spec.any_case) t)) s))
  end.
Proof.
  induction s as [|c s IH]; intros i.
  - cbn [search]. rewrite matcher_detailed. reflexivity.
  - cbn [search]. rewrite matcher_detailed.
    destruct (Spec.detailed_label (c :: s)) as [[lbl t]|] eqn:E.
    + destruct (match_here _ _ _ E) as (H1 & H2 & H3).
      exists 0%nat, lbl, t. cbn [rest cap1]. rewrite H1, Nat.add_0_r.
      repeat split; assumption.
    + specialize (IH (S i)). destruct (search true detailedReflectionRegex (S i) s) as [a|].
      * destruct IH as (j & lbl & t & -> & Hl & Hle & Hfm).
        exists (S j), lbl, t. rewrite Nat.add_succ_r. cbn [skipn Nat.add].
        repeat split; [exact Hl|cbn [List.length]; lia|].
        cbn [Spec.tails flat_map]. now rewrite (detailed_at_none _ _ E).
      * cbn [Spec.tails flat_map]. now rewrite (detailed_at_none _ _ E).
Qed.

(** ** The loop over the detailed matches *)

Lemma detailed_loop_spec fuel text : forall lastIndex acc,
  (lastIndex <= List.length text)%nat ->
  (List.length text - lastIndex < fuel)%nat ->
  detailed_loop fuel text lastIndex acc =
  Ok (acc ++ flat_map (Spec.detailed_at Spec.any_case) (Spec.tails (skipn lastIndex text))).
Proof.
  induction fuel as [|fuel IH]; intros lastIndex acc Hle Hfuel; [lia|].
  cbn [detailed_loop]. unfold exec, ignoreCase.
  replace (List.length text <? lastIndex)%nat with false
    by (symmetry; apply Nat.ltb_ge; lia).
  pose proof (search_detailed (skipn lastIndex text) lastIndex) as Hs.
  destruct (search true detailedReflectionRegex lastIndex (skipn lastIndex text)) as [a|].
  - destruct Hs as (j & lbl & t & -> & Hl & Hlen & Hfm).
    cbn [index m0 m1 trim_group]. rewrite length_skipn in Hlen.
    destruct (detailed_label_app _ _ _ Hl) as [_ Hpos].
    assert (Hlen' := Hlen). rewrite length_app in Hlen'.
    rewrite IH by (rewrite length_app; lia).
    rewrite (split_first_label _ _ _ _ Hl), Hfm, <- app_assoc. cbn [app].
    rewrite skipn_skipn. do 6 f_equal. lia.
  - now rewrite Hs, app_nil_r.
Qed.

(** ** The brief pattern *)

Lemma search_brief s : forall i,
  option_map m1 (search true briefReflectionRegex i s) =
  option_map (fun u => Some (Spec.until Spec.brief_stop (skipn 11 u)))
    (find (Spec.starts_with Spec.any_case "Reflection:") (Spec.tails s)).
Proof.
  induction s as [|c s IH]; intros i.
  - cbn [search]. rewrite matcher_brief. reflexivity.
  - cbn [search Spec.tails find]. rewrite matcher_brief. unfold Spec.starts_with at 1.
    destruct (Spec.strip_prefix Spec.any_case (lit "Reflection:") (c :: s)) as [t|] eqn:E.
    + cbn [option_map m1 cap1]. now rewrite (strip_prefix_skipn _ _ _ _ E).
    + apply IH.
Qed.

(** ** The extractor *)

(** The extractor returns, for every text, the detailed reflections of all
    the labels in text order and then the brief reflection, the labels
    being read in any letter case. *)
Lemma parse_extraction text :
  parseReflectionsFromAIOutput text = Ok (Spec.extraction Spec.any_case text).
Proof.
  unfold parseReflectionsFromAIOutput, Spec.extraction, Spec.detailed, Spec.brief.
  rewrite detailed_loop_spec by lia. cbn [skipn app].
  unfold exec, ignoreCase. cbn [Nat.ltb Nat.leb skipn].
  pose proof (search_brief text 0) as Hb.
  destruct (search true briefReflectionRegex 0 text) as [a|];
    destruct (find (Spec.starts_with Spec.any_case "Reflection:") (Spec.tails text)) as [u|];
    try discriminate Hb; cbn [fst option_map] in *; [|now rewrite app_nil_r].
  injection Hb as ->. reflexivity.
Qed.

End LoopFacts.


Module ExtractorProps.
Import Extractor LabelFacts LoopFacts.

(** ** Counting the labels *)

Lemma tails_seq (s : jsstring) :
  Spec.tails s = map (fun i => skipn i s) (seq 0 (S (List.length s))).
Proof.
  induction s as [|c s IH]; [reflexivity|].
  cbn [Spec.tails List.length]. rewrite IH.
  change (seq 0 (S (S (List.length s)))) with (0%nat :: seq 1 (S (List.length s))).
  rewrite <- seq_shift, map_cons, map_map. reflexivity.
Qed.

Lemma length_detailed_labels eqc (l : list jsstring) :
  List.length (flat_map (Spec.detailed_at eqc) l) =
  List.length (filter Spec.is_detailed_label l).
Proof.
  induction l as [|s l IH]; [reflexivity|].
  cbn [flat_map filter]. rewrite length_app, IH.
  unfold Spec.detailed_at, Spec.is_detailed_label.
  now destruct (Spec.detailed_label s) as [[lbl t]|].
Qed.

Lemma length_filter_map {A B} (p : B -> bool) (f : A -> B) l :
  List.length (filter p (map f l)) = List.length (filter (fun a => p (f a)) l).
Proof.
  induction l as [|a l IH]; [reflexivity|]. cbn. destruct (p (f a)); cbn; congruence.
Qed.

(** There are as many detailed reflections as positions where a label
    starts. *)
Lemma length_detailed eqc text :
  List.length (Spec.detailed eqc text) = List.length (Spec.label_positions text).
Proof.
  unfold Spec.detailed, Spec.label_positions.
  rewrite length_detailed_labels, tails_seq, length_filter_map, seq_S, filter_app.
  rewrite length_app. cbn [filter Nat.add]. rewrite skipn_all. cbn. lia.
Qed.

Lemma find_none_all {A} (p : A -> bool) l :
  (forall x, In x l -> p x = false) -> find p l = None.
Proof.
  induction l as [|a l IH]; intros H; [reflexivity|].
  cbn. rewrite (H a) by now left. apply IH. intros; apply H; now right.
Qed.

Lemma brief_none eqc text :
  (forall i, Spec.starts_with eqc "Reflection:" (skipn i text) = false) ->
  Spec.brief eqc text = [].
Proof.
  intros H. unfold Spec.brief. rewrite find_none_all; [reflexivity|].
  intros u Hu. rewrite tails_seq in Hu. apply in_map_iff in Hu.
  destruct Hu as (i & <- & _). apply H.
Qed.

(** ** The two kinds of reflection *)

(** C2, as amended: for every text, the extractor returns first one
    detailed reflection for every position where a label "DETAILED
    REFLECTION <number>:" stands (in any letter case), in text order, so as
    many as there are such positions. The type of each is the label's text
    before its colon, trimmed; its content is the text from the label to
    the next such label, to a label "Reflection:" in any letter case, to
    "####" or to the end of the text, trimmed. A text without any of the
    labels gives the empty list. *)
Theorem detailed_reflections (text : jsstring) :
  (exists brief,
     parseReflectionsFromAIOutput text = Ok (Spec.detailed Spec.any_case text ++ brief) /\
     (List.length brief <= 1)%nat) /\
  List.length (Spec.detailed Spec.any_case text) =
    List.length (Spec.label_positions text) /\
  (Spec.label_positions text = [] ->
   (forall i, Spec.starts_with Spec.any_case "Reflection:" (skipn i text) = false) ->
   parseReflectionsFromAIOutput text = Ok []).
Proof.
  repeat split.
  - exists (Spec.brief Spec.any_case text). split; [apply parse_extraction|].
    unfold Spec.brief. destruct (find _ _); cbn; lia.
  - apply length_detailed.
  - intros Hl Hb. rewrite parse_extraction. unfold Spec.extraction.
    rewrite (brief_none _ _ Hb), app_nil_r.
    pose proof (length_detailed Spec.any_case text) as H. rewrite Hl in H.
    now destruct (Spec.detailed Spec.any_case text).
Qed.

(** C2 as stated fails: the label "Reflection:" that ends a detailed
    section is found in any letter case, so the content of the section in
    "DETAILED REFLECTION 1: my reflection: good" is "my", not the text up
    to the end. *)
Lemma detailed_reflections_counterexample :
  parseReflectionsFromAIOutput (lit "DETAILED REFLECTION 1: my reflection: good") =
  Ok [Reflection (lit "DETAILED REFLECTION 1") (lit "my");
      Reflection (lit "BRIEF REFLECTION") (lit "good")] /\
  Spec.detailed Spec.exact (lit "DETAILED REFLECTION 1: my reflection: good") =
  [Reflection (lit "DETAILED REFLECTION 1") (lit "my reflection: good")].
Proof. split; vm_compute; reflexivity. Qed.

(** C3, as amended: for every text, at most one brief reflection is
    extracted: the section at the first position where the label
    "Reflection:" stands in any letter case, with the type "BRIEF
    REFLECTION" and as content the text after the label up to the next
    "####" or the end of the text, trimmed. In the result it comes after all
    the detailed reflections, wherever it stands in the text. *)
Theorem brief_reflection (text : jsstring) :
  parseReflectionsFromAIOutput text =
    Ok (Spec.detailed Spec.any_case text ++ Spec.brief Spec.any_case text) /\
  (List.length (Spec.brief Spec.any_case text) <= 1)%nat /\
  Forall (fun r => type r = lit "BRIEF REFLECTION") (Spec.brief Spec.any_case text).
Proof.
  split; [apply parse_extraction|].
  unfold Spec.brief. destruct (find _ _); cbn; split; try lia; repeat constructor.
Qed.

(** C3 as stated fails: the label is not taken literally. The text
    "reflection: x" holds no literal label "Reflection:", and a brief
    reflection is extracted from it all the same. *)
Lemma brief_reflection_counterexample :
  parseReflectionsFromAIOutput (lit "reflection: x") =
  Ok [Reflection (lit "BRIEF REFLECTION") (lit "x")] /\
  Spec.brief Spec.exact (lit "reflection: x") = [].
Proof. split; vm_compute; reflexivity. Qed.

End ExtractorProps.


Module HandlerFacts.
Import Extractor Handler LoopFacts.
Local Open Scope handler_scope.

(** ** Running the monad *)

Lemma bind_ok {A B} (m : M A) (f : A -> M B) s a s' :
  m s = (Ok a, s') -> bind m f s = f a s'.
Proof. unfold bind. now intros ->. Qed.

Lemma bind_throw {A B} (m : M A) (f : A -> M B) s e s' :
  m s = (Throw e, s') -> bind m f s = (Throw e, s').
Proof. unfold bind. now intros ->. Qed.

Lemma try_catch_ok {A} (m : M A) h s a s' :
  m s = (Ok a, s') -> try_catch m h s = (Ok a, s').
Proof. unfold try_catch. now intros ->. Qed.

Lemma try_catch_throw {A} (m : M A) h s e s' :
  m s = (Throw e, s') -> try_catch m h s = h e s'.
Proof. unfold try_catch. now intros ->. Qed.

(** ** The loop that stores the reflections *)

(** Whatever the store answers, the loop goes through all the reflections:
    it makes one write for each, in order, touches nothing of the response
    and does not throw. *)
Lemma store_reflections_spec w threadId reflections : forall s,
  exists s' kvs,
    store_reflections w threadId reflections s = (Ok tt, s') /\
    res s' = res s /\
    trace s' = trace s ++ kvs /\
    Forall2 (stores threadId) kvs reflections.
Proof.
  induction reflections as [|r reflections IH]; intros s.
  - exists s, []. cbn. rewrite app_nil_r. repeat split. constructor.
  - cbn [store_reflections].
    unfold bind at 1. cbn [new_Date_toISOString].
    unfold bind at 1. cbn [Math_random_toString36].
    unfold bind at 1. unfold try_catch, bind at 1. cbn [new_Date_toISOString].
    unfold bind at 1. unfold kv_set at 1. cbn [kv_calls res trace console dates randoms].
    destruct (kv_set_result w (kv_calls s)) as [e|].
    + unfold console_error, modify.
      match goal with |- context [store_reflections w threadId reflections ?s1] =>
        destruct (IH s1) as (s' & kvs & -> & Hres & Htrace & Hkvs) end.
      eexists s', (_ :: kvs). repeat split.
      * rewrite Hres. reflexivity.
      * rewrite Htrace. cbn [trace]. now rewrite <- app_assoc.
      * constructor; [|exact Hkvs]. eexists _, _. reflexivity.
    + unfold console_log, modify.
      match goal with |- context [store_reflections w threadId reflections ?s1] =>
        destruct (IH s1) as (s' & kvs & -> & Hres & Htrace & Hkvs) end.
      eexists s', (_ :: kvs). repeat split.
      * rewrite Hres. reflexivity.
      * rewrite Htrace. cbn [trace]. now rewrite <- app_assoc.
      * constructor; [|exact Hkvs]. eexists _, _. reflexivity.
Qed.

(** ** The paths through the handler *)

Lemma truthy_value_some (s : jsstring) :
  s <> [] -> truthy_value truthy_string (Some s) = Some s.
Proof. destruct s; [congruence|reflexivity]. Qed.

Lemma truthy_value_none {A} (truthy : A -> bool) (x : option A) :
  truthy_opt truthy x = false -> truthy_value truthy x = None.
Proof. destruct x as [v|]; cbn; [|reflexivity]. now intros ->. Qed.

(** A POST request with the required fields, credentials in place: the
    handler goes on to the upstream call. *)
Lemma run_configured w req apiKey mem0ApiKey model msgs :
  configured w apiKey mem0ApiKey -> well_formed req model msgs ->
  run w req =
  try_catch
    (console_log "Processing request:" ;;
     if truthy_opt truthy_bool (stream (req_body req))
     then streaming w (fireworksHeaders apiKey)
            (fireworksPayload model msgs (req_body req))
     else buffering w (Mem0 mem0ApiKey) (fireworksHeaders apiKey)
            (fireworksPayload model msgs (req_body req)) msgs
            (currentThreadId (req_body req)))
    (fun error =>
       console_error "Server error:" ;;
       res_status 500 ;;
       res_json (ErrorBody "Internal server error" (Some (JS.message error))))
    (State (Res cors_headers 200 [] false) [] [] 0 0 0).
Proof.
  intros (Hk1 & Hn1 & Hk2 & Hn2) (Hm & Hmodel & Hn3 & Hmsgs).
  unfold run, handler. rewrite Hm.
  unfold try_block. rewrite Hk1, Hk2, Hmodel, Hmsgs, !truthy_value_some by assumption.
  reflexivity.
Qed.


(** The complete answer: the reflections are stored, the turn is given to
    the memory service, and the answer is sent as it came. *)
Lemma buffering_spec w mem0 hs p msgs tid r data m s :
  upstream w = Fulfilled r -> ok r = true -> json_ r = Fulfilled data ->
  last_message msgs = Some m ->
  exists s' kvs,
    buffering w mem0 hs p msgs tid s = (Ok tt, s') /\
    res s' = Res (headers (res s)) 200 (sent (res s) ++ [JsonPart (DataBody data)]) true /\
    trace s' = trace s ++ [Fetch url hs p] ++ kvs ++ memory_write mem0 m data tid /\
    Forall2 (stores (or_default truthy_string tid (lit "unknown-thread"))) kvs
      (Spec.extraction Spec.any_case (aiResponseContent data)).
Proof.
  intros Hu Hok Hj Hlast.
  unfold buffering, fetch. unfold bind at 1. unfold bind at 1.
  unfold record, modify. rewrite Hu. cbn [await ret]. rewrite Hok. cbn [negb].
  unfold bind at 1. rewrite Hj. cbn [await ret].
  unfold bind at 1. rewrite parse_extraction. cbn [lift].
  unfold bind at 1.
  match goal with |- context [store_reflections w ?t ?l ?s1] =>
    destruct (store_reflections_spec w t l s1) as (s2 & kvs & -> & Hres & Htrace & Hkvs) end.
  cbn [res trace] in Hres, Htrace.
  unfold bind at 1. rewrite Hlast. cbn [ret].
  unfold memory_write.
  assert (Hfinal : forall s3 evs,
             res s3 = res s -> trace s3 = trace s2 ++ evs ->
             exists s',
               (res_status 200 ;; res_json (DataBody data)) s3 = (Ok tt, s') /\
               res s' = Res (headers (res s)) 200
                          (sent (res s) ++ [JsonPart (DataBody data)]) true /\
               trace s' = trace s ++ [Fetch url hs p] ++ kvs ++ evs).
  { intros s3 evs H3 T3. eexists. split; [reflexivity|].
    cbn [res trace]. rewrite H3, T3, Htrace, <- !app_assoc. split; reflexivity. }
  destruct (truthy_value truthy_string (msg_content m)) as [user|].
  2:{ destruct (Hfinal s2 []) as (s' & H1 & H2 & H3); [assumption|now rewrite app_nil_r|].
      exists s', kvs. unfold bind at 1. cbn [ret]. auto. }
  destruct (truthy_string (aiResponseContent data)).
  2:{ destruct (Hfinal s2 []) as (s' & H1 & H2 & H3); [assumption|now rewrite app_nil_r|].
      exists s', kvs. unfold bind at 1. cbn [ret]. auto. }
  unfold bind at 1. unfold try_catch, mem0_add, bind at 1. unfold bind at 1.
  unfold record, modify.
  destruct (mem0_add_result w) as [e|]; cbn [throw ret console_log console_error modify];
    match goal with |- context [(res_status 200 ;; _) ?s3] =>
      destruct (Hfinal s3 [Mem0Add mem0
                             [Turn (lit "user") user;
                              Turn (lit "agent") (aiResponseContent data)]
                             (or_default truthy_string tid (lit "default-user"))])
        as (s' & H1 & H2 & H3); [assumption|reflexivity|]
    end;
    exists s', kvs; auto.
Qed.

(** The complete answer to a request whose [messages] is empty: the
    reflections are stored, then the read of the last message throws. *)
Lemma buffering_empty w mem0 hs p tid r data s :
  upstream w = Fulfilled r -> ok r = true -> json_ r = Fulfilled data ->
  exists s' kvs,
    buffering w mem0 hs p [] tid s = (Throw (type_error_undefined "content"), s') /\
    res s' = res s /\
    trace s' = trace s ++ [Fetch url hs p] ++ kvs /\
    Forall2 (stores (or_default truthy_string tid (lit "unknown-thread"))) kvs
      (Spec.extraction Spec.any_case (aiResponseContent data)).
Proof.
  intros Hu Hok Hj.
  unfold buffering, fetch. unfold bind at 1. unfold bind at 1.
  unfold record, modify. rewrite Hu. cbn [await ret]. rewrite Hok. cbn [negb].
  unfold bind at 1. rewrite Hj. cbn [await ret].
  unfold bind at 1. rewrite parse_extraction. cbn [lift].
  unfold bind at 1.
  match goal with |- context [store_reflections w ?t ?l ?s1] =>
    destruct (store_reflections_spec w t l s1) as (s2 & kvs & -> & Hres & Htrace & Hkvs) end.
  cbn [res trace] in Hres, Htrace.
  unfold bind at 1. cbn [last_message List.length Nat.sub nth_error throw].
  exists s2, kvs. rewrite Htrace, <- app_assoc. auto.
Qed.

Lemma stores_kv_writes threadId kvs reflections :
  Forall2 (stores threadId) kvs reflections ->
  filter is_kv_write kvs = kvs /\ filter is_mem0_write kvs = [] /\
  filter is_fetch kvs = [].
Proof.
  induction 1 as [|e r kvs reflections (key & ts & ->) _ (IH1 & IH2 & IH3)];
    [now repeat split|].
  cbn. now rewrite IH1, IH2, IH3.
Qed.

Lemma memory_write_writes mem0 m data tid :
  filter is_kv_write (memory_write mem0 m data tid) = [] /\
  filter is_mem0_write (memory_write mem0 m data tid) = memory_write mem0 m data tid.
Proof.
  unfold memory_write.
  destruct (truthy_value truthy_string (msg_content m));
    [destruct (truthy_string (aiResponseContent data))|]; now split.
Qed.

End HandlerFacts.


Module HandlerProps.
Import Extractor Handler LoopFacts HandlerFacts.
Local Open Scope handler_scope.

(** ** The upstream payload *)

(** A sampling parameter that the caller supplied with a truthy value is
    kept, an absent one gets its default. *)
Lemma or_default_truthy {A} (truthy : A -> bool) v d :
  truthy v = true -> or_default truthy (Some v) d = v.
Proof. cbn. now intros ->. Qed.

Lemma or_default_absent {A} (truthy : A -> bool) (d : A) :
  or_default truthy None d = d.
Proof. reflexivity. Qed.

(** C1: the payload does not merge every caller-supplied value over the
    defaults. A request that supplies [temperature: 0] (and likewise
    [top_p: 0], [top_k: 0] or [max_tokens: 0]) gets the default instead:
    [temperature || 0.6] takes the supplied zero for a missing value. The
    payload carries 0.6, 1, 40 and 4096 where the caller asked for 0. *)
Theorem payload_replaces_supplied_zero (model : jsstring) (messages : list message) :
  let zero := Some 0%float in
  let b := Body (Some model) (Some messages) zero zero zero zero None None None
             None None None in
  let p := fireworksPayload model messages b in
  p_temperature p = zero_point_six /\ p_top_p p = 1%float /\
  p_top_k p = 40%float /\ p_max_tokens p = 4096%float /\
  PrimFloat.eqb (p_temperature p) 0 = false.
Proof. repeat split. Qed.

(** [tools] and [tool_choice] are part of the payload only when [tools] was
    supplied non-empty. *)
Lemma payload_tools model messages b :
  p_tools (fireworksPayload model messages b) =
    match tools b with
    | Some (t :: ts) => Some (t :: ts)
    | _ => None
    end /\
  (p_tools (fireworksPayload model messages b) = None ->
   p_tool_choice (fireworksPayload model messages b) = None).
Proof.
  unfold fireworksPayload. destruct (tools b) as [[|t ts]|]; cbn; split; congruence.
Qed.

(** ** Rejected requests *)

(** C6: a POST request is answered with status 500 and the error tag
    "Server configuration error" when either credential is missing from the
    environment (or empty), and no call to the provider, the key-value store
    or the memory service is made. *)
Theorem missing_credential (w : world) (req : request) :
  method req = "POST"%string ->
  truthy_opt truthy_string (FIREWORKS_API_KEY w) = false \/
  truthy_opt truthy_string (MEM_API_KEY w) = false ->
  statusCode (response w req) = 500%Z /\
  (exists message,
     sent (response w req) =
     [JsonPart (ErrorBody "Server configuration error" (Some message))]) /\
  calls w req = [].
Proof.
  intros Hm H. unfold response, calls, run, handler. rewrite Hm. unfold try_block.
  destruct H as [H|H].
  - rewrite (truthy_value_none _ _ H). repeat split. eexists. reflexivity.
  - rewrite (truthy_value_none _ _ H).
    destruct (truthy_value truthy_string (FIREWORKS_API_KEY w));
      repeat split; eexists; reflexivity.
Qed.

Lemma missing_credential_witness :
  statusCode
    (response (Sample.world (Some Sample.key) None (Rejected Sample.body_used)
                 (fun _ => None) None)
       (Sample.post (Sample.chat [Sample.user_message] None))) = 500%Z /\
  calls (Sample.world (Some Sample.key) None (Rejected Sample.body_used)
           (fun _ => None) None)
    (Sample.post (Sample.chat [Sample.user_message] None)) = [].
Proof.
  pose proof (missing_credential
                (Sample.world (Some Sample.key) None (Rejected Sample.body_used)
                   (fun _ => None) None)
                (Sample.post (Sample.chat [Sample.user_message] None))
                eq_refl (or_intror eq_refl)) as (H1 & _ & H2).
  split; assumption.
Defined.

(** C5, as amended: with both credentials in place, a POST request whose
    [model] is missing (or empty) or whose [messages] is missing is answered
    with status 400 and the one fixed message "Missing required fields:
    model and messages", whichever field is missing, and no call to the
    provider is made. *)
Theorem missing_field (w : world) (req : request) (apiKey mem0ApiKey : jsstring) :
  method req = "POST"%string -> configured w apiKey mem0ApiKey ->
  truthy_opt truthy_string (model (req_body req)) = false \/
  messages (req_body req) = None ->
  response w req =
    Res cors_headers 400
      [JsonPart (ErrorBody "Bad request"
                   (Some (lit "Missing required fields: model and messages")))]
      true /\
  calls w req = [].
Proof.
  intros Hm (Hk1 & Hn1 & Hk2 & Hn2) H.
  unfold response, calls, run, handler. rewrite Hm. unfold try_block.
  rewrite Hk1, Hk2, !truthy_value_some by assumption.
  destruct H as [H|H].
  - rewrite (truthy_value_none _ _ H). split; reflexivity.
  - rewrite H. cbn [truthy_value].
    destruct (truthy_value truthy_string (model (req_body req))); split; reflexivity.
Qed.

Lemma missing_field_witness :
  statusCode
    (response (Sample.plain (Rejected Sample.body_used))
       (Sample.post Sample.empty_body)) = 400%Z /\
  calls (Sample.plain (Rejected Sample.body_used)) (Sample.post Sample.empty_body) = [].
Proof.
  assert (Hc : configured (Sample.plain (Rejected Sample.body_used)) Sample.key Sample.key)
    by (repeat split; discriminate).
  pose proof (missing_field (Sample.plain (Rejected Sample.body_used))
                (Sample.post Sample.empty_body) Sample.key Sample.key
                eq_refl Hc (or_introl eq_refl)) as (H1 & H2).
  split; [now rewrite H1 | exact H2].
Defined.

(** C5 as stated fails: a POST request without [model] is answered with
    500, not 400, when the inference key is not set, since the credentials
    are checked first; and the answers to a request without [model] and to
    one without [messages] are the same, so the message does not tell which
    field is missing. *)
Lemma missing_field_counterexample :
  statusCode
    (response (Sample.world None (Some Sample.key) (Rejected Sample.body_used)
                 (fun _ => None) None)
       (Sample.post Sample.empty_body)) = 500%Z /\
  sent (response (Sample.plain (Rejected Sample.body_used))
          (Sample.post
             (Body None (Some [Sample.user_message]) None None None None None None
                None None None None))) =
  sent (response (Sample.plain (Rejected Sample.body_used))
          (Sample.post
             (Body (Some (lit "m")) None None None None None None None
                None None None None))).
Proof. split; reflexivity. Qed.

(** ** The upstream call fails *)


Lemma sample_configured upstream :
  configured (Sample.plain upstream) Sample.key Sample.key.
Proof. repeat split; discriminate. Qed.

Lemma sample_well_formed msgs stream :
  well_formed (Sample.post (Sample.chat msgs stream)) (lit "m") msgs.
Proof. repeat split; discriminate. Qed.


(** ** The complete answer *)

(** The run of a plain request that the provider answers. *)
Lemma run_buffered w req apiKey mem0ApiKey model msgs r data m :
  configured w apiKey mem0ApiKey -> well_formed req model msgs ->
  truthy_opt truthy_bool (stream (req_body req)) = false ->
  upstream w = Fulfilled r -> ok r = true -> json_ r = Fulfilled data ->
  last_message msgs = Some m ->
  exists kvs,
    response w req = Res cors_headers 200 [JsonPart (DataBody data)] true /\
    calls w req =
      Fetch url (fireworksHeaders apiKey) (fireworksPayload model msgs (req_body req))
        :: kvs ++ memory_write (Mem0 mem0ApiKey) m data (currentThreadId (req_body req)) /\
    Forall2
      (stores (or_default truthy_string (currentThreadId (req_body req))
                 (lit "unknown-thread")))
      kvs (Spec.extraction Spec.any_case (aiResponseContent data)).
Proof.
  intros Hc Hw Hs Hu Hok Hj Hlast. unfold response, calls.
  assert (H : exists s' kvs,
             run w req = (Ok tt, s') /\
             res s' = Res cors_headers 200 [JsonPart (DataBody data)] true /\
             trace s' =
               [Fetch url (fireworksHeaders apiKey)
                  (fireworksPayload model msgs (req_body req))]
               ++ kvs
               ++ memory_write (Mem0 mem0ApiKey) m data (currentThreadId (req_body req)) /\
             Forall2
               (stores (or_default truthy_string (currentThreadId (req_body req))
                          (lit "unknown-thread")))
               kvs (Spec.extraction Spec.any_case (aiResponseContent data))).
  { rewrite (run_configured _ _ _ _ _ _ Hc Hw), Hs.
    unfold try_catch. unfold bind at 1. unfold console_log, modify.
    match goal with |- context [buffering w ?mem0 ?hs ?p msgs ?tid ?s1] =>
      destruct (buffering_spec w mem0 hs p msgs tid r data m s1 Hu Hok Hj Hlast)
        as (s' & kvs & -> & Hres & Htrace & Hkvs) end.
    exists s', kvs. auto. }
  destruct H as (s' & kvs & -> & Hres & Htrace & Hkvs).
  exists kvs. cbn [snd]. rewrite Hres, Htrace. repeat split. exact Hkvs.
Qed.

(** C8, as amended: for a plain request that carries at least one message
    and that the provider answers, whatever the key-value store answers to
    each write (the world [w] is arbitrary, so any of the writes may throw),
    the handler ends with status 200 and the provider's document, unchanged;
    and every extracted reflection was handed to the store, in order, the
    ones after a failed write included. *)
Theorem kv_failure_absorbed (w : world) (req : request)
    (apiKey mem0ApiKey model : jsstring) (msgs : list message)
    (r : http_response) (data : completion) (m : message) :
  configured w apiKey mem0ApiKey -> well_formed req model msgs ->
  truthy_opt truthy_bool (stream (req_body req)) = false ->
  upstream w = Fulfilled r -> ok r = true -> json_ r = Fulfilled data ->
  last_message msgs = Some m ->
  response w req = Res cors_headers 200 [JsonPart (DataBody data)] true /\
  exists reflections,
    parseReflectionsFromAIOutput (aiResponseContent data) = Ok reflections /\
    Forall2
      (stores (or_default truthy_string (currentThreadId (req_body req))
                 (lit "unknown-thread")))
      (filter is_kv_write (calls w req)) reflections.
Proof.
  intros Hc Hw Hs Hu Hok Hj Hlast.
  destruct (run_buffered _ _ _ _ _ _ _ _ _ Hc Hw Hs Hu Hok Hj Hlast)
    as (kvs & Hres & Hcalls & Hkvs).
  split; [exact Hres|]. eexists. split; [apply parse_extraction|].
  rewrite Hcalls. cbn [filter is_kv_write]. rewrite filter_app.
  destruct (stores_kv_writes _ _ _ Hkvs) as (-> & _).
  destruct (memory_write_writes (Mem0 mem0ApiKey) m data (currentThreadId (req_body req)))
    as (-> & _).
  now rewrite app_nil_r.
Qed.

Lemma kv_failure_absorbed_witness :
  response
    (Sample.world (Some Sample.key) (Some Sample.key)
       (Fulfilled
          (Sample.success
             (Sample.answer (lit "DETAILED REFLECTION 1: a Reflection: b"))))
       Sample.kv_down None)
    (Sample.post (Sample.chat [Sample.user_message] None)) =
  Res cors_headers 200
    [JsonPart
       (DataBody (Sample.answer (lit "DETAILED REFLECTION 1: a Reflection: b")))]
    true.
Proof.
  refine (proj1 (kv_failure_absorbed
                   (Sample.world (Some Sample.key) (Some Sample.key)
                      (Fulfilled
                         (Sample.success
                            (Sample.answer
                               (lit "DETAILED REFLECTION 1: a Reflection: b"))))
                      Sample.kv_down None)
                   (Sample.post (Sample.chat [Sample.user_message] None))
                   Sample.key Sample.key (lit "m")
                   [Sample.user_message] _ _ Sample.user_message
                   _ (sample_well_formed _ _) eq_refl eq_refl eq_refl eq_refl eq_refl)).
  repeat split; discriminate.
Defined.

(** C8 as stated fails: it speaks of every plain request that the provider
    answers. A request whose [messages] is the empty list passes the check
    of the required fields; its two reflections are handed to the store,
    which refuses them, and the answer is status 500, not 200. *)
Lemma kv_failure_absorbed_counterexample :
  statusCode
    (response
       (Sample.world (Some Sample.key) (Some Sample.key)
          (Fulfilled
             (Sample.success
                (Sample.answer (lit "DETAILED REFLECTION 1: a Reflection: b"))))
          Sample.kv_down None)
       (Sample.post (Sample.chat [] None))) = 500%Z /\
  List.length
    (filter is_kv_write
       (calls
          (Sample.world (Some Sample.key) (Some Sample.key)
             (Fulfilled
                (Sample.success
                   (Sample.answer (lit "DETAILED REFLECTION 1: a Reflection: b"))))
             Sample.kv_down None)
          (Sample.post (Sample.chat [] None)))) = 2%nat.
Proof. split; vm_compute; reflexivity. Qed.

(** C7, as amended: a plain request that the provider answers makes one
    write to the memory service when the content of the last entry of
    [messages] and the assistant's reply are both non-empty, and none
    otherwise. The write holds two entries: the content of that last entry
    under the role "user", whatever the entry's own role is, and the raw
    reply under the role "agent"; it is tagged with [currentThreadId], or
    with "default-user" when that is missing or empty. *)
Theorem memory_write_last_message (w : world) (req : request)
    (apiKey mem0ApiKey model : jsstring) (msgs : list message)
    (r : http_response) (data : completion) (m : message) :
  configured w apiKey mem0ApiKey -> well_formed req model msgs ->
  truthy_opt truthy_bool (stream (req_body req)) = false ->
  upstream w = Fulfilled r -> ok r = true -> json_ r = Fulfilled data ->
  last_message msgs = Some m ->
  (forall user,
     msg_content m = Some user -> user <> [] -> aiResponseContent data <> [] ->
     filter is_mem0_write (calls w req) =
     [Mem0Add (Mem0 mem0ApiKey)
        [Turn (lit "user") user; Turn (lit "agent") (aiResponseContent data)]
        (or_default truthy_string (currentThreadId (req_body req))
           (lit "default-user"))]) /\
  (truthy_opt truthy_string (msg_content m) = false \/ aiResponseContent data = [] ->
   filter is_mem0_write (calls w req) = []).
Proof.
  intros Hc Hw Hs Hu Hok Hj Hlast.
  destruct (run_buffered _ _ _ _ _ _ _ _ _ Hc Hw Hs Hu Hok Hj Hlast)
    as (kvs & _ & Hcalls & Hkvs).
  assert (H : filter is_mem0_write (calls w req) =
              memory_write (Mem0 mem0ApiKey) m data (currentThreadId (req_body req))).
  { rewrite Hcalls. cbn [filter is_mem0_write]. rewrite filter_app.
    destruct (stores_kv_writes _ _ _ Hkvs) as (_ & -> & _).
    now destruct (memory_write_writes (Mem0 mem0ApiKey) m data
                    (currentThreadId (req_body req))) as (_ & ->). }
  rewrite H. unfold memory_write. split.
  - intros user Hm Hn Ha. rewrite Hm, (truthy_value_some _ Hn).
    destruct (aiResponseContent data); [congruence|reflexivity].
  - intros [Hm| ->].
    + now rewrite (truthy_value_none _ _ Hm).
    + now destruct (truthy_value truthy_string (msg_content m)).
Qed.

Lemma memory_write_last_message_witness :
  filter is_mem0_write
    (calls (Sample.plain (Fulfilled (Sample.success (Sample.answer (lit "Sure.")))))
       (Sample.post (Sample.chat [Sample.user_message] None))) =
  [Mem0Add (Mem0 Sample.key)
     [Turn (lit "user") (lit "hi"); Turn (lit "agent") (lit "Sure.")]
     (lit "default-user")].
Proof.
  refine (proj1 (memory_write_last_message
                   (Sample.plain
                      (Fulfilled (Sample.success (Sample.answer (lit "Sure.")))))
                   (Sample.post (Sample.chat [Sample.user_message] None))
                   Sample.key Sample.key (lit "m")
                   [Sample.user_message] _ _ Sample.user_message
                   (sample_configured _) (sample_well_formed _ _)
                   eq_refl eq_refl eq_refl eq_refl eq_refl)
            (lit "hi") eq_refl _ _); discriminate.
Defined.

(** C7 as stated fails: when the conversation ends with an assistant
    message, the entry written under the role "user" is that assistant
    message ("hello"), not the most recent user message ("hi"). *)
Lemma memory_write_counterexample :
  filter is_mem0_write
    (calls (Sample.plain (Fulfilled (Sample.success (Sample.answer (lit "Sure.")))))
       (Sample.post
          (Sample.chat [Sample.user_message; Sample.assistant_message] None))) =
  [Mem0Add (Mem0 Sample.key)
     [Turn (lit "user") (lit "hello"); Turn (lit "agent") (lit "Sure.")]
     (lit "default-user")] /\
  option_map msg_content
    (Spec.most_recent_user_message [Sample.user_message; Sample.assistant_message]) =
  Some (Some (lit "hi")).
Proof. split; vm_compute; reflexivity. Qed.

(** ** The empty conversation *)

(** C10: a plain request whose [messages] is the empty list passes the
    check of the required fields: the provider is called, and after its
    answer the read of the last message's content throws, which the outer
    handler turns into status 500 "Internal server error". The reflections
    of the answer were stored before that; nothing is written to the memory
    service. *)
Theorem empty_messages_internal_error (w : world) (req : request)
    (apiKey mem0ApiKey model : jsstring) (r : http_response) (data : completion) :
  configured w apiKey mem0ApiKey -> well_formed req model [] ->
  truthy_opt truthy_bool (stream (req_body req)) = false ->
  upstream w = Fulfilled r -> ok r = true -> json_ r = Fulfilled data ->
  response w req =
    Res cors_headers 500
      [JsonPart
         (ErrorBody "Internal server error"
            (Some (JS.message (type_error_undefined "content"))))]
      true /\
  exists kvs,
    calls w req =
      Fetch url (fireworksHeaders apiKey) (fireworksPayload model [] (req_body req))
        :: kvs /\
    filter is_kv_write kvs = kvs.
Proof.
  intros Hc Hw Hs Hu Hok Hj. unfold response, calls.
  assert (H : exists s' kvs,
             run w req = (Ok tt, s') /\
             res s' =
               Res cors_headers 500
                 [JsonPart
                    (ErrorBody "Internal server error"
                       (Some (JS.message (type_error_undefined "content"))))]
                 true /\
             trace s' =
               Fetch url (fireworksHeaders apiKey)
                 (fireworksPayload model [] (req_body req)) :: kvs /\
             filter is_kv_write kvs = kvs).
  { rewrite (run_configured _ _ _ _ _ _ Hc Hw), Hs.
    unfold try_catch. unfold bind at 1. unfold console_log, modify.
    match goal with |- context [buffering w ?mem0 ?hs ?p [] ?tid ?s1] =>
      destruct (buffering_empty w mem0 hs p tid r data s1 Hu Hok Hj)
        as (s' & kvs & -> & Hres & Htrace & Hkvs) end.
    eexists _, kvs. split; [reflexivity|]. cbn [res trace]. rewrite Hres, Htrace.
    repeat split. now destruct (stores_kv_writes _ _ _ Hkvs). }
  destruct H as (s' & kvs & -> & Hres & Htrace & Hkvs).
  split; [exact Hres|]. exists kvs. split; assumption.
Qed.

Lemma empty_messages_internal_error_witness :
  statusCode
    (response (Sample.plain (Fulfilled (Sample.success (Sample.answer (lit "Sure.")))))
       (Sample.post (Sample.chat [] None))) = 500%Z.
Proof.
  rewrite (proj1 (empty_messages_internal_error
                    (Sample.plain
                       (Fulfilled (Sample.success (Sample.answer (lit "Sure.")))))
                    (Sample.post (Sample.chat [] None))
                    Sample.key Sample.key (lit "m")
                    _ _ (sample_configured _) (sample_well_formed _ _)
                    eq_refl eq_refl eq_refl eq_refl)).
  reflexivity.
Defined.

End HandlerProps.


Module Utf8Facts.
Import Utf8.
Local Open Scope N_scope.

(** ** Bits and arithmetic *)










(** ** The decoder on the bytes of one code point *)









(** ** Streams of code points *)





(** ** Writing the text *)




End Utf8Facts.


Module StreamProps.
Import Extractor Handler HandlerFacts HandlerProps Utf8Facts.
Local Open Scope handler_scope.

(** ** The relay loop *)




(** ** The relayed stream *)




End StreamProps.
